(** * asciifier: image to ASCII art, with text, PostScript and PDF output

    A shallow embedding of [asciifier.py] (Python 2).  Python [float]s are
    IEEE 754 binary64 numbers and are modelled bit-exactly with the
    specification floats of the standard library ([SpecFloat], precision 53,
    [emax] 1024); Python [str] values are byte strings and are modelled by
    [string]; exceptions are modelled by an error type.

    What the Python runtime and the imaging libraries compute (the decimal
    text of a float, [zlib.compress], the clock, font loading and glyph
    rasterisation) is collected in the class [Runtime] and taken as a
    parameter. *)

From Stdlib Require Import ZArith List Lia Bool Ascii String.
From Stdlib Require Import Numbers.DecimalString.
From Stdlib Require Import Floats.SpecFloat.
From Stdlib Require Import Sorting.Permutation Sorting.Sorted.
Import ListNotations.

Open Scope Z_scope.

(** ** Exceptions *)

Inductive exn : Type :=
| IndexError
| KeyError
| ValueError
| OverflowError
| ZeroDivisionError
| TypeError
| AttributeError.

Inductive res (A : Type) : Type :=
| Ok (a : A)
| Raise (e : exn).

Arguments Ok {A} a.
Arguments Raise {A} e.

Definition bind {A B : Type} (m : res A) (k : A -> res B) : res B :=
  match m with
  | Ok a => k a
  | Raise e => Raise e
  end.

Notation "x <- m ;; k" := (bind m (fun x => k))
  (at level 61, m at next level, right associativity).

(** ** Python floats: IEEE 754 binary64 *)

Module F.

Definition prec : Z := 53.
Definition emax : Z := 1024.

Definition add : spec_float -> spec_float -> spec_float := SFadd prec emax.
Definition sub : spec_float -> spec_float -> spec_float := SFsub prec emax.
Definition mul : spec_float -> spec_float -> spec_float := SFmul prec emax.
Definition div : spec_float -> spec_float -> spec_float := SFdiv prec emax.

(** [float(z)] for a Python integer: the nearest binary64 number. *)
Definition of_Z (z : Z) : spec_float := binary_normalize prec emax z 0 false.

(** A decimal literal [n / 10^k] of the source text, read as the nearest
    binary64 number.  Numerator and denominator of every literal of the
    program are below [2^53], hence exact, and the division is correctly
    rounded. *)
Definition lit (n d : Z) : spec_float := div (of_Z n) (of_Z d).

Definition is_zero (x : spec_float) : bool :=
  match x with
  | S754_zero _ => true
  | _ => false
  end.

(** [int(x)]: truncation towards zero. *)
Definition to_int (x : spec_float) : res Z :=
  match x with
  | S754_zero _ => Ok 0
  | S754_nan => Raise ValueError
  | S754_infinity _ => Raise OverflowError
  | S754_finite s m e =>
      let a := if 0 <=? e then Zpos m * 2 ^ e else Zpos m / 2 ^ (- e) in
      Ok (if s then - a else a)
  end.

(** [math.ceil(x)], which returns a float in Python 2. *)
Definition ceil (x : spec_float) : spec_float :=
  match x with
  | S754_finite s m e =>
      if 0 <=? e then x
      else
        let q := Zpos m / 2 ^ (- e) in
        let exact := Zpos m mod 2 ^ (- e) =? 0 in
        let c := if s then - q else if exact then q else q + 1 in
        if c =? 0 then S754_zero s else of_Z c
  | _ => x
  end.

End F.

(** ** Python numbers: [int] or [float], with the coercions of Python 2 *)

Inductive num : Type :=
| PyInt (z : Z)
| PyFloat (f : spec_float).

Definition to_float (a : num) : spec_float :=
  match a with
  | PyInt z => F.of_Z z
  | PyFloat f => f
  end.

Definition num_add (a b : num) : num :=
  match a, b with
  | PyInt x, PyInt y => PyInt (x + y)
  | _, _ => PyFloat (F.add (to_float a) (to_float b))
  end.

Definition num_sub (a b : num) : num :=
  match a, b with
  | PyInt x, PyInt y => PyInt (x - y)
  | _, _ => PyFloat (F.sub (to_float a) (to_float b))
  end.

Definition num_mul (a b : num) : num :=
  match a, b with
  | PyInt x, PyInt y => PyInt (x * y)
  | _, _ => PyFloat (F.mul (to_float a) (to_float b))
  end.

(** [a / b]: floor division on two ints, float division otherwise; a zero
    divisor raises in both cases. *)
Definition num_div (a b : num) : res num :=
  match a, b with
  | PyInt x, PyInt y =>
      if y =? 0 then Raise ZeroDivisionError else Ok (PyInt (x / y))
  | _, _ =>
      if F.is_zero (to_float b) then Raise ZeroDivisionError
      else Ok (PyFloat (F.div (to_float a) (to_float b)))
  end.

Definition num_ceil (a : num) : num := PyFloat (F.ceil (to_float a)).

Definition num_int (a : num) : res Z :=
  match a with
  | PyInt z => Ok z
  | PyFloat f => F.to_int f
  end.

Declare Scope py_scope.
Delimit Scope py_scope with py.
Infix "+" := num_add : py_scope.
Infix "-" := num_sub : py_scope.
Infix "*" := num_mul : py_scope.

(** ** Python strings and lists *)

Definition nl : string := String "010"%char EmptyString.

(** [sep.join(parts)] *)
Definition join (sep : string) (parts : list string) : string :=
  String.concat sep parts.

Definition len (s : string) : Z := Z.of_nat (String.length s).

(** ['{}'.format(z)] and ['{0:010d}'.format(z)] for an int [z]. *)
Definition dec (z : Z) : string := NilEmpty.string_of_int (Z.to_int z).

Fixpoint zeros (n : nat) : string :=
  match n with
  | O => EmptyString
  | S k => String "0"%char (zeros k)
  end.

Definition zfill (width : nat) (s : string) : string :=
  (zeros (width - String.length s) ++ s)%string.

Definition dec010 (z : Z) : string :=
  if z <? 0 then ("-" ++ zfill 9 (dec (- z)))%string else zfill 10 (dec z).

Definition is_space (c : ascii) : bool :=
  let n := nat_of_ascii c in
  (Nat.eqb n 32 || (Nat.leb 9 n && Nat.leb n 13))%bool.

(** [s.rstrip()] *)
Fixpoint rstrip (s : string) : string :=
  match s with
  | EmptyString => EmptyString
  | String c s' =>
      match rstrip s' with
      | EmptyString => if is_space c then EmptyString else String c EmptyString
      | r => String c r
      end
  end.

Definition lower_char (c : ascii) : ascii :=
  let n := nat_of_ascii c in
  if (Nat.leb 65 n && Nat.leb n 90)%bool then ascii_of_nat (n + 32) else c.

(** [string.lower(s)] *)
Fixpoint lower (s : string) : string :=
  match s with
  | EmptyString => EmptyString
  | String c s' => String (lower_char c) (lower s')
  end.

(** [l[i]], with Python's negative indices. *)
Definition getitem {A : Type} (l : list A) (i : Z) : res A :=
  let n := Z.of_nat (List.length l) in
  let j := if i <? 0 then i + n else i in
  if (0 <=? j) && (j <? n) then
    match nth_error l (Z.to_nat j) with
    | Some a => Ok a
    | None => Raise IndexError
    end
  else Raise IndexError.

(** [l[i] = v] for an index in range (the list is unchanged otherwise). *)
Fixpoint setitem {A : Type} (l : list A) (i : nat) (v : A) : list A :=
  match l, i with
  | [], _ => []
  | _ :: tl, O => v :: tl
  | a :: tl, S k => a :: setitem tl k v
  end.

(** [range(0, n)] *)
Definition range (n : nat) : list nat := seq 0 n.

(** ** [cumsum] *)

Section Cumsum.

Context {A : Type} (zero : A) (plus : A -> A -> A).

(** The loop of [cumsum], with the running sum [s] as an argument. *)
Fixpoint cumsum_from (s : A) (arr : list A) : list A :=
  match arr with
  | [] => []
  | x :: rest => let s' := plus s x in s' :: cumsum_from s' rest
  end.

Definition cumsum (arr : list A) : list A := cumsum_from zero arr.

(** [xs[0] + ... + xs[i]], added from the left starting from [0]. *)
Definition prefix_sum (xs : list A) (i : nat) : A :=
  fold_left plus (firstn (S i) xs) zero.

End Cumsum.

Definition mm2pt (mm : num) : num :=
  (PyFloat (F.lit 2834645669 1000000000) * mm)%py.

(** ** Data model *)

Record Size : Type := mkSize { width : num; height : num }.

Record Point : Type := mkPoint { px : num; py : num }.

Record Margin : Type :=
  mkMargin { top : num; right : num; bottom : num; left : num }.

(** The sampled image held in [self.im]: its size and [getpixel], which
    yields the [(r, g, b)] triple of the pixel at [(x, y)]. *)
Record image : Type :=
  mkImage { im_width : nat; im_height : nat; getpixel : nat -> nat -> Z * Z * Z }.

(** The character grid [self.result], addressed [column][row]. *)
Definition grid : Type := list (list ascii).

(** The attributes of an [Asciifier] object. *)
Record asciifier : Type :=
  mkAsciifier {
    margins : Margin;
    result : option grid;
    im : option image;
    luminosity : list ascii
  }.

Definition set_luminosity (self : asciifier) (ramp : list ascii) : asciifier :=
  mkAsciifier (margins self) (result self) (im self) ramp.

Definition set_result (self : asciifier) (g : grid) : asciifier :=
  mkAsciifier (margins self) (Some g) (im self) (luminosity self).

Definition set_im (self : asciifier) (i : image) : asciifier :=
  mkAsciifier (margins self) (result self) (Some i) (luminosity self).

(** [PAPER_SIZES], in millimetres. *)
Definition PAPER_SIZES (key : string) : res Size :=
  if String.eqb key "a6" then Ok (mkSize (PyInt 105) (PyInt 148))
  else if String.eqb key "a5" then Ok (mkSize (PyInt 148) (PyInt 210))
  else if String.eqb key "a4" then Ok (mkSize (PyInt 210) (PyInt 297))
  else if String.eqb key "a3" then Ok (mkSize (PyInt 297) (PyInt 420))
  else if String.eqb key "a2" then Ok (mkSize (PyInt 420) (PyInt 594))
  else if String.eqb key "a1" then Ok (mkSize (PyInt 594) (PyInt 841))
  else if String.eqb key "a0" then Ok (mkSize (PyInt 841) (PyInt 1189))
  else if String.eqb key "letter" then
    Ok (mkSize (PyFloat (F.lit 2159 10)) (PyFloat (F.lit 2794 10)))
  else Raise KeyError.

(** The ramp set by [__init__]. *)
Definition default_luminosity : list ascii :=
  list_ascii_of_string
    ("HRBEpMqQNWg#mb" ++ "AKdD8@PGFUhXeT" ++ "ZSkO$yaLf60w9&" ++
     "5Yx4nsC%Vo2uJI" ++ "z3jctrlvi}?{1=" ++ "][+7<>|!*/;:~-" ++ ". ")%string.

(** [Asciifier()], with the default margins of 10 mm. *)
Definition init : asciifier :=
  mkAsciifier (mkMargin (PyInt 10) (PyInt 10) (PyInt 10) (PyInt 10))
    None None default_luminosity.

(** ** The luminance mapping *)

(** [0.2126 * r + 0.7152 * g + 0.0722 * b] *)
Definition luminance (p : Z * Z * Z) : spec_float :=
  let '(r, g, b) := p in
  F.add (F.add (F.mul (F.lit 2126 10000) (F.of_Z r))
               (F.mul (F.lit 7152 10000) (F.of_Z g)))
        (F.mul (F.lit 722 10000) (F.of_Z b)).

(** [int(l * nchars / 255)] *)
Definition ramp_index (l : spec_float) (nchars : Z) : res Z :=
  q <- num_div (PyFloat l * PyInt nchars)%py (PyInt 255) ;;
  num_int q.

(** [self.luminosity[int(l * nchars / 255)]] for the pixel [p]. *)
Definition map_pixel (ramp : list ascii) (p : Z * Z * Z) : res ascii :=
  i <- ramp_index (luminance p) (Z.of_nat (List.length ramp)) ;;
  getitem ramp i.

(** ** [process]: building the character grid *)

(** [[a[:] for a in [[' '] * h] * w]] *)
Definition blank_grid (w h : nat) : grid :=
  map (fun a => a) (repeat (repeat " "%char h) w).

(** [result[x][y] = c] *)
Definition grid_set (g : grid) (x y : nat) (c : ascii) : grid :=
  match nth_error g x with
  | Some col => setitem g x (setitem col y c)
  | None => g
  end.

(** A [for] loop over [xs] whose body updates the state [s] and may raise:
    the loop stops at the first exception and keeps the state reached. *)
Fixpoint for_each {S : Type} (xs : list nat) (body : nat -> S -> S * option exn)
    (s : S) : S * option exn :=
  match xs with
  | [] => (s, None)
  | x :: rest =>
      match body x s with
      | (s', None) => for_each rest body s'
      | (s', Some e) => (s', Some e)
      end
  end.

(** The body of the inner loop, lines 287 to 289. *)
Definition process_cell (i : image) (ramp : list ascii) (x y : nat) (g : grid)
    : grid * option exn :=
  match map_pixel ramp (getpixel i x y) with
  | Ok c => (grid_set g x y c, None)
  | Raise e => (g, Some e)
  end.

(** [process], from the point where the image has been opened and sampled:
    [i] is the image after [thumbnail].  The result is the object after the
    call, with the exception that ended the call if there was one. *)
Definition process (i : image) (self : asciifier) : asciifier * option exn :=
  let self := set_im self i in
  let w := im_width i in
  let h := im_height i in
  let ramp := luminosity self in
  let '(g, e) :=
    for_each (range w)
      (fun x => for_each (range h) (fun y => process_cell i ramp x y))
      (blank_grid w h) in
  (set_result self g, e).

(** ** [to_plain_text] *)

(** The first element of every column and the remaining columns, when every
    column has one. *)
Fixpoint heads_tails {A : Type} (cols : list (list A))
    : option (list A * list (list A)) :=
  match cols with
  | [] => Some ([], [])
  | [] :: _ => None
  | (a :: col) :: rest =>
      match heads_tails rest with
      | Some (hs, ts) => Some (a :: hs, col :: ts)
      | None => None
      end
  end.

Fixpoint zip_rows {A : Type} (fuel : nat) (cols : list (list A)) : list (list A) :=
  match fuel with
  | O => []
  | S k =>
      match heads_tails cols with
      | Some (hs, ts) => hs :: zip_rows k ts
      | None => []
      end
  end.

(** [zip( *cols )]: the tuples end with the shortest column, and there are
    none when there is no column. *)
Definition zip_star {A : Type} (cols : list (list A)) : list (list A) :=
  match cols with
  | [] => []
  | c :: _ => zip_rows (List.length c) cols
  end.

Definition plain_text (g : grid) : string :=
  let txt := zip_star g in
  join nl (map (fun line => rstrip (string_of_list_ascii line)) txt).

Definition to_plain_text (self : asciifier) : res string :=
  match result self with
  | Some g => Ok (plain_text g)
  | None => Raise TypeError
  end.







(** ** What the Python runtime and the imaging libraries provide *)

Class Runtime : Type :=
  mkRuntime {
    (** a loaded font *)
    font : Type;
    (** [ImageFont.truetype(file, size)]; [None] when it raises [IOError] *)
    truetype : string -> Z -> option font;
    (** the pixels, as [image.getdata()] lists them, of the 64 by 64 white
        image on which [draw.text] has drawn the character in black *)
    glyph_pixels : font -> ascii -> list (Z * Z * Z);
    (** ['{}'.format(x)] for a float [x] *)
    float_str : spec_float -> string;
    (** [zlib.compress(data, level)] *)
    zlib_compress : string -> Z -> string;
    (** [datetime.today().strftime('%Y%m%d%H%M%S')] *)
    today_stamp : string;
    (** [datetime.today().isoformat()] *)
    today_iso : string
  }.

Section WithRuntime.

Context {RT : Runtime}.

(** ['{}'.format(a)] for a number. *)
Definition fmt (a : num) : string :=
  match a with
  | PyInt z => dec z
  | PyFloat f => float_str f
  end.

(** ** [generate_luminosity_mapping] *)

(** The inner loop, lines 101 to 104: [l] starts at [0] and accumulates the
    luminance of every pixel. *)
Definition ink_score (pixels : list (Z * Z * Z)) : spec_float :=
  fold_left (fun l p => F.add l (luminance p)) pixels (F.of_Z 0).

(** [sorted(intensity, key=lambda lum: lum['l'])]: a stable sort. *)
Fixpoint insert_by_l (x : spec_float * ascii) (l : list (spec_float * ascii))
    : list (spec_float * ascii) :=
  match l with
  | [] => [x]
  | y :: rest =>
      if SFltb (fst y) (fst x) then y :: insert_by_l x rest else x :: y :: rest
  end.

Definition sorted_by_l (l : list (spec_float * ascii)) : list (spec_float * ascii) :=
  fold_right insert_by_l [] l.

Definition generate_luminosity_mapping (self : asciifier) (font_file : string)
    : asciifier :=
  let n := 64 in
  match truetype font_file 51 with
  | None => self
  | Some fnt =>
      let intensity :=
        map (fun c => let ch := ascii_of_nat c in
                      (ink_score (glyph_pixels fnt ch), ch))
            (seq 32 95) in
      set_luminosity self (map snd (sorted_by_l intensity))
  end.

(** ** Helpers shared by the page renderers *)

Definition the_image (self : asciifier) : res image :=
  match im self with
  | Some i => Ok i
  | None => Raise AttributeError
  end.

(** [self.result[x][y]] *)
Definition cell (self : asciifier) (x y : nat) : res ascii :=
  match result self with
  | None => Raise TypeError
  | Some g =>
      col <- getitem g (Z.of_nat x) ;;
      getitem col (Z.of_nat y)
  end.

(** A loop that appends to a list of lines. *)
Fixpoint collect (xs : list nat) (body : nat -> res (list string))
    : res (list string) :=
  match xs with
  | [] => Ok []
  | x :: rest =>
      a <- body x ;;
      b <- collect rest body ;;
      Ok (a ++ b)%list
  end.

Definition char_str (c : ascii) : string := String c EmptyString.

Definition is_blank (c : ascii) : bool := Ascii.eqb c " "%char.

(** ** [to_postscript] *)

Record ps_kwargs : Type :=
  mkPsKwargs { ps_paper : option string; ps_font_name : option string }.

Record ps_layout : Type :=
  mkPsLayout {
    paper_pt : Size;
    size_pt : Size;
    size : Size;
    scale : num;
    offset : Point
  }.

(** Lines 223 to 233: the layout arithmetic. *)
Definition postscript_layout (self : asciifier) (paper : string) : res ps_layout :=
  paper_size <- PAPER_SIZES (lower paper) ;;
  let m := margins self in
  let paper_pt := mkSize (mm2pt (width paper_size)) (mm2pt (height paper_size)) in
  let size_pt :=
    mkSize (num_ceil (width paper_pt - mm2pt (left m + right m))%py)
           (num_ceil (height paper_pt - mm2pt (top m + bottom m))%py) in
  let grid_pt := PyInt 12 in
  i <- the_image self ;;
  let size := mkSize (PyInt (Z.of_nat (im_width i)) * grid_pt)%py
                     (PyInt (Z.of_nat (im_height i)) * grid_pt)%py in
  scale <- num_div (width size_pt) (width size) ;;
  ox <- num_div (width size_pt - width size * scale)%py (PyInt 2) ;;
  oy <- num_div (height size_pt - height size * scale)%py (PyInt 2) ;;
  let offset := mkPoint (left m + ox)%py (top m + oy)%py in
  Ok (mkPsLayout paper_pt size_pt size scale offset).

Definition to_postscript (self : asciifier) (kwargs : ps_kwargs) : res string :=
  let paper := match ps_paper kwargs with Some p => p | None => "a4"%string end in
  let font_name :=
    match ps_font_name kwargs with Some f => f | None => "Courier"%string end in
  lay <- postscript_layout self paper ;;
  let grid_pt := 12 in
  let font_pt := 12 in
  i <- the_image self ;;
  let h := im_height i in
  let w := im_width i in
  let lines := [
    "%!PS-Adobe-3.0";
    "%%BoundingBox: 0 0 " ++ fmt (width (size lay)) ++ " " ++ fmt (height (size lay));
    "%%Creator: asciifier";
    "%%CreationDate: " ++ today_iso;
    "%%DocumentMedia: " ++ paper ++ " " ++ fmt (width (paper_pt lay)) ++ " "
      ++ fmt (height (paper_pt lay)) ++ " 80 white ()";
    "%%Pages: 1";
    "%%EndComments";
    "%%BeginSetup";
    "  % A4, unrotated";
    "  << /PageSize [" ++ fmt (width (paper_pt lay)) ++ " "
      ++ fmt (height (paper_pt lay)) ++ "] /Orientation 0 >> setpagedevice";
    "%%EndSetup";
    "%Copyright: Copyright (c) 2015 Oliver Lau <ola@ct.de>, Heise Medien GmbH & Co. KG";
    "%Copyright: All rights reserved.";
    "% Image converted to ASCII by asciifier.py (https://github.com/ola-ct/asciifier)";
    "";
    "/" ++ font_name ++ " findfont";
    dec font_pt ++ " scalefont";
    "setfont";
    "";
    "/c { moveto show } def";
    "";
    fmt (px (offset lay)) ++ " " ++ fmt (py (offset lay)) ++ " translate";
    fmt (scale lay) ++ " " ++ fmt (scale lay) ++ " scale"
  ]%string in
  glyphs <-
    collect (range h) (fun y =>
      let yoff := (Z.of_nat h - Z.of_nat y) * grid_pt in
      collect (range w) (fun x =>
        c <- cell self x y ;;
        Ok (if is_blank c then []
            else ["(" ++ char_str c ++ ") " ++ dec (Z.of_nat x * grid_pt) ++ " "
                    ++ dec yoff ++ " c"]%string))) ;;
  Ok (join nl (lines ++ glyphs ++ [""; "showpage"]%string)%list).

(** ** [to_pdf] *)

Record pdf_kwargs : Type :=
  mkPdfKwargs {
    pdf_paper : option string;
    pdf_compress : option bool;
    pdf_font_name : option string
  }.

(** [ord(min(ramp))] and [ord(max(ramp))] *)
Definition ord_min (ramp : list ascii) : res Z :=
  match ramp with
  | [] => Raise ValueError
  | c :: rest =>
      Ok (Z.of_nat (fold_left Nat.min (map nat_of_ascii rest) (nat_of_ascii c)))
  end.

Definition ord_max (ramp : list ascii) : res Z :=
  match ramp with
  | [] => Raise ValueError
  | c :: rest =>
      Ok (Z.of_nat (fold_left Nat.max (map nat_of_ascii rest) (nat_of_ascii c)))
  end.

(** The object after lines 112 to 115: a font name, when given, regenerates
    the ramp. *)
Definition pdf_self (self : asciifier) (kwargs : pdf_kwargs) : asciifier :=
  match pdf_font_name kwargs with
  | Some f => generate_luminosity_mapping self f
  | None => self
  end.

(** Lines 116 to 137: the content stream. *)
Definition pdf_stream (self : asciifier) (kwargs : pdf_kwargs) : res string :=
  let paper_type := match pdf_paper kwargs with Some p => p | None => "a4"%string end in
  let compress := match pdf_compress kwargs with Some b => b | None => true end in
  paper <- PAPER_SIZES (lower paper_type) ;;
  let m := margins self in
  let inner := mkSize (num_ceil (width paper - left m - right m)%py)
                      (num_ceil (height paper - top m - bottom m)%py) in
  i <- the_image self ;;
  let size := mkSize (PyInt (Z.of_nat (im_width i))) (PyInt (Z.of_nat (im_height i))) in
  scale <- num_div (width inner) (width size) ;;
  ox <- num_div (width inner - width size * scale)%py (PyInt 2) ;;
  oy <- num_div (height inner - height size * scale)%py (PyInt 2) ;;
  let offset := mkPoint (left m + ox)%py (bottom m + oy)%py in
  stream_lines <-
    collect (range (im_height i)) (fun y =>
      let yy := (py offset + scale * PyInt (Z.of_nat (im_height i) - Z.of_nat y))%py in
      collect (range (im_width i)) (fun x =>
        c <- cell self x y ;;
        Ok (if is_blank c then []
            else ["BT /F1 " ++ fmt scale ++ " Tf "
                    ++ fmt (px offset + PyInt (Z.of_nat x) * scale)%py ++ " "
                    ++ fmt yy ++ " Td (" ++ char_str c ++ ") Tj ET"]%string))) ;;
  let stream := join nl stream_lines in
  Ok (if compress then zlib_compress stream 9 else stream).

(** Lines 141 to 197: the header and the eight objects. *)
Definition pdf_blocks (self : asciifier) (kwargs : pdf_kwargs)
    : res (list (list string)) :=
  let paper_type := match pdf_paper kwargs with Some p => p | None => "a4"%string end in
  let compress := match pdf_compress kwargs with Some b => b | None => true end in
  let font_name :=
    match pdf_font_name kwargs with Some f => f | None => "Courier"%string end in
  let self := pdf_self self kwargs in
  paper <- PAPER_SIZES (lower paper_type) ;;
  stream <- pdf_stream self kwargs ;;
  let glyph_widths := map (fun _ => "200"%string) (luminosity self) in
  first_char <- ord_min (luminosity self) ;;
  last_char <- ord_max (luminosity self) ;;
  Ok [
    [ "%PDF-1.7";
      String "%" (String "254" (String "245" (String "244" EmptyString))) ];
    [ "1 0 obj<< /Type/Catalog/Pages 2 0 R >>endobj" ];
    [ "2 0 obj<< /Type/Pages/Count 1 /Kids [3 0 R] >>endobj" ];
    [ "3 0 obj<< /Type/Page";
      "     /UserUnit 2.834645669";
      "     /MediaBox [0 0 " ++ fmt (width paper) ++ " " ++ fmt (height paper) ++ "]";
      "     /Parent 2 0 R";
      "     /Resources << /Font << /F1 4 0 R >> >>";
      "     /Contents 5 0 R";
      "  >>";
      "endobj" ];
    [ "4 0 obj";
      "  << /Type/Font /Subtype/TrueType /Name/F1";
      "     /BaseFont/" ++ font_name;
      "     /FirstChar " ++ dec first_char ++ " /LastChar " ++ dec last_char;
      "     /Widths 7 0 R";
      "     /FontDescriptor 8 0 R";
      "     /Encoding/MacRomanEncoding" ++ "  >>";
      "endobj" ];
    [ "5 0 obj<< /Length " ++ dec (len stream) ++ " "
        ++ (if compress then "/Filter[/FlateDecode]" else "") ++ ">>stream";
      stream;
      "endstream";
      "endobj" ];
    [ "6 0 obj<<";
      "  /Producer(ASCIIfier)";
      "  /Creator(ASCIIfier)";
      "  /Subject(retro computing)";
      "  /Keywords(ASCII art fun)";
      "  /CreationDate(D:" ++ today_stamp ++ ")";
      ">>endobj" ];
    [ "7 0 obj [";
      join " " glyph_widths;
      "]" ];
    [ "8 0 obj<<";
      ">>" ]
  ]%string.

(** Line 198: [cumsum] of the lengths of the joined blocks. *)
Definition pdf_blockoffsets (blocks : list (list string)) : list Z :=
  cumsum 0 Z.add (map len (map (join nl) blocks)).

(** Lines 199 to 216: the cross-reference section and the trailer. *)
Definition pdf_xref (blocks : list (list string)) : res (list string) :=
  let blockoffsets := pdf_blockoffsets blocks in
  let blockcount := List.length blockoffsets in
  let xref := [ "xref";
                "0 " ++ dec (Z.of_nat blockcount);
                dec010 0 ++ " 65535 f" ]%string in
  entries <-
    collect (range blockcount) (fun i =>
      o <- getitem blockoffsets (Z.of_nat i) ;;
      Ok [dec010 o ++ " 00000 n"]%string) ;;
  last <- getitem blockoffsets (Z.of_nat blockcount - 1) ;;
  Ok (xref ++ entries ++
      [ "trailer<<";
        "  /Root 1 0 R";
        "  /Info 6 0 R";
        "  /Size " ++ dec (Z.of_nat (List.length blocks) + 1);
        ">>";
        "startxref";
        dec last;
        "%%EOF" ]%string)%list.

(** Lines 217 and 218: the buffer that [to_pdf] returns. *)
Definition pdf_buffer (blocks : list (list string)) (xref : list string) : string :=
  join nl (map (join nl) (blocks ++ [xref])%list).

Definition to_pdf (self : asciifier) (kwargs : pdf_kwargs) : res string :=
  blocks <- pdf_blocks self kwargs ;;
  xref <- pdf_xref blocks ;;
  Ok (pdf_buffer blocks xref).

End WithRuntime.

(** ** Notions used to reason about binary64 rounding *)

(** Where the rational [X / Y] lies between [X / Y] rounded down and the next
    integer: on it, below the middle, on the middle or above it. *)
Definition locate (X Y : Z) : location :=
  if X mod Y =? 0 then loc_Exact else loc_Inexact (2 * (X mod Y) ?= Y).

(** The integer nearest to [X / Y], ties going to the even one. *)
Definition rne (X Y : Z) : Z := round_nearest_even (X / Y) (locate X Y).

(** The shift register [mrs] holds the rational [X / Y]: its integer part and
    the position of the remainder. *)
Definition shr_inv (mrs : shr_record) (X Y : Z) : Prop :=
  shr_m mrs = X / Y /\ loc_of_shr_record mrs = locate X Y.

(** [x] is zero, or a positive number [m * 2^e] with [e >= - o], whose value
    is at most [B] in units of [2^-o]. *)
Definition below (o B : Z) (x : spec_float) : Prop :=
  match x with
  | S754_zero _ => 0 <= B
  | S754_finite false m e => 0 <= e + o /\ Zpos m * 2 ^ (e + o) <= B
  | _ => False
  end.

(** The value [m * 2^e] in units of [2^-1074]. *)
Definition sc (m e : Z) : Z := m * 2 ^ (e + 1074).

(** The three coefficients of [luminance], the three products for a channel
    value of 255, and the sum of the first two of them. *)
Definition cR : spec_float := F.lit 2126 10000.
Definition cG : spec_float := F.lit 7152 10000.
Definition cB : spec_float := F.lit 722 10000.

Definition topR : spec_float := S754_finite false 7629801456207397 (-47).
Definition topG : spec_float := S754_finite false 6416785044072824 (-45).
Definition topB : spec_float := S754_finite false 5182235796219888 (-48).
Definition topRG : spec_float := S754_finite false 8324235408124673 (-45).

(** [255.0] *)
Definition f255 : spec_float := S754_finite false 8972014882652160 (-45).

(** ** Inputs used in the examples *)

(** A machine on which no font file can be opened.  The text of a float is
    left opaque and [zlib.compress] is not modelled: the examples below do
    not depend on either. *)
Definition no_font_runtime : Runtime :=
  mkRuntime Empty_set
    (fun _ _ => None)
    (fun f _ => match f with end)
    (fun _ => "<float>"%string)
    (fun data _ => data)
    "20150101000000"%string
    "2015-01-01T00:00:00"%string.

(** An image of [w] by [h] pixels of one colour. *)
Definition plain_image (w h : nat) (colour : Z * Z * Z) : image :=
  mkImage w h (fun _ _ => colour).

Definition white : Z * Z * Z := (255, 255, 255).
Definition black : Z * Z * Z := (0, 0, 0).

(** The object after [Asciifier().process(...)] on a white image of
    2 by 2 pixels. *)
Definition white_2x2 : asciifier := fst (process (plain_image 2 2 white) init).

(** [to_pdf(compress=False)] *)
Definition pdf_uncompressed : pdf_kwargs := mkPdfKwargs None (Some false) None.

(** The translate offset in the words of the specification: the margins
    are converted to points, the printable area lies between them, and the
    scaled content is centred in it on both axes. *)
Definition centred_offset (self : asciifier) (lay : ps_layout) : res Point :=
  let m := margins self in
  let printable :=
    mkSize (width (paper_pt lay) - mm2pt (left m) - mm2pt (right m))%py
           (height (paper_pt lay) - mm2pt (top m) - mm2pt (bottom m))%py in
  ox <- num_div (width printable - width (size lay) * scale lay)%py (PyInt 2) ;;
  oy <- num_div (height printable - height (size lay) * scale lay)%py (PyInt 2) ;;
  Ok (mkPoint (mm2pt (left m) + ox)%py (mm2pt (bottom m) + oy)%py).

(** [a < b] on numbers. *)
Definition num_lt (a b : num) : bool := SFltb (to_float a) (to_float b).

(** The first position at which [needle] occurs in [s]. *)
Definition find (needle s : string) : option nat := String.index 0 needle s.

(** The character that [process] stores for the pixel [(x, y)], and the
    grid made of these characters. *)
Definition pixel_char (i : image) (ramp : list ascii) (x y : nat) : ascii :=
  match map_pixel ramp (getpixel i x y) with
  | Ok c => c
  | Raise _ => " "%char
  end.

Definition char_grid (i : image) (ramp : list ascii) : grid :=
  map (fun x => map (fun y => pixel_char i ramp x y) (range (im_height i)))
      (range (im_width i)).

(** The grid has [w] columns of [h] cells. *)
Definition has_shape (g : grid) (w h : nat) : Prop :=
  List.length g = w /\ forall col, In col g -> List.length col = h.

(** Every component of every pixel of the image lies in [0, 255]. *)
Definition rgb_image (i : image) : Prop :=
  forall x y, (x < im_width i)%nat -> (y < im_height i)%nat ->
    let '(r, g, b) := getpixel i x y in
    0 <= r <= 255 /\ 0 <= g <= 255 /\ 0 <= b <= 255.

(** ** [main]: the options *)

(** [s.endswith(suffix)] *)
Definition endswith (s suffix : string) : bool :=
  let n := String.length s in
  let m := String.length suffix in
  (Nat.leb m n && String.eqb (substring (n - m) m s) suffix)%bool.

(** The namespace that [parser.parse_args()] returns; an option that is not
    given is [None]. *)
Record cli_args : Type :=
  mkArgs {
    arg_image : string;
    arg_out : option string;
    arg_type : option string;
    arg_aspect : option spec_float;
    arg_font : option string;
    arg_paper : option string;
    arg_resolution : option Z
  }.

(** [TYPE_CHOICES] *)
Definition TYPE_CHOICES : list string := ["text"; "postscript"; "pdf"]%string.

(** What [argparse] accepts for [--type]: one of the choices, or nothing. *)
Definition valid_type (a : cli_args) : Prop :=
  match arg_type a with
  | Some t => In t TYPE_CHOICES
  | None => True
  end.

(** Lines 312 to 319 of [main]. *)
Definition output_type_of (a : cli_args) : string :=
  let output_type := "text"%string in
  let output_type :=
    match arg_out a with
    | Some out =>
        if endswith out ".ps" then "postscript"%string
        else if endswith out ".pdf" then "pdf"%string
        else output_type
    | None => output_type
    end in
  match arg_type a with
  | Some t =>
      if (String.eqb t "postscript" || String.eqb t "pdf")%bool then t
      else output_type
  | None => output_type
  end.

(** Lines 321 to 331. *)
Definition aspect_ratio_of (a : cli_args) : spec_float :=
  match arg_aspect a with Some x => x | None => F.of_Z 2 end.

Definition resolution_of (a : cli_args) : Z :=
  match arg_resolution a with Some n => n | None => 80 end.

Definition paper_of (a : cli_args) : string :=
  match arg_paper a with Some p => p | None => "a3"%string end.

(** Lines 333 to 335: the font name, which is [None] when [--paper] is given
    without [--font]. *)
Definition font_name_of (a : cli_args) : option string :=
  match arg_paper a with
  | Some _ => arg_font a
  | None => Some "Courier"%string
  end.

(** ** Notions used to state the further properties *)

(** A machine on which every font file opens the same toy font: the image
    of a character has a few black pixels, as many as its code modulo 3,
    and one white pixel. *)
Definition toy_font_runtime : Runtime :=
  mkRuntime unit
    (fun _ _ => Some tt)
    (fun _ c => repeat (0, 0, 0) (nat_of_ascii c mod 3) ++ [(255, 255, 255)])
    (fun _ => "<float>"%string)
    (fun data _ => data)
    "20150101000000"%string
    "2015-01-01T00:00:00"%string.

(** The printable ASCII characters, [chr(32)] to [chr(126)]. *)
Definition printable_chars : list ascii := map ascii_of_nat (seq 32 95).

(** The ink score of a character in a font. *)
Definition glyph_score {RT : Runtime} (fnt : font) (c : ascii) : spec_float :=
  ink_score (glyph_pixels fnt c).

(** [b] does not come before [a] in the order of the ink scores. *)
Definition score_le {RT : Runtime} (fnt : font) (a b : ascii) : Prop :=
  SFltb (glyph_score fnt b) (glyph_score fnt a) = false.

(** The number of cells of a grid that are not blank. *)
Definition is_ink (c : ascii) : bool := negb (Ascii.eqb c " "%char).

Definition count_ink (g : grid) : nat :=
  List.length (filter is_ink (List.concat g)).

(** The cell [g[x][y]], blank outside of the grid. *)
Definition cell_at (g : grid) (x y : nat) : ascii :=
  nth y (nth x g []) " "%char.

(** The list is strictly increasing. *)
Definition increasing (l : list Z) : Prop :=
  forall i j, (i < j < List.length l)%nat -> nth i l 0 < nth j l 0.

(** * Properties *)

(** ** Rounding to nearest in [SpecFloat] *)

Lemma digits2_pos_size p : digits2_pos p = Pos.size p.
Proof. induction p; simpl; congruence. Qed.

Lemma Zdigits2_bounds p :
  2 ^ (Zdigits2 (Zpos p) - 1) <= Zpos p < 2 ^ Zdigits2 (Zpos p).
Proof.
  change (Zdigits2 (Zpos p)) with (Zpos (digits2_pos p)).
  rewrite digits2_pos_size. split.
  - pose proof (Pos.size_le p) as H.
    assert (Hs : Zpos (Pos.size p) = Z.succ (Zpos (Pos.size p) - 1)) by lia.
    assert (H2 : (2 ^ Zpos (Pos.size p) <= 2 * Zpos p)).
    { apply Pos2Z.pos_le_pos in H. rewrite Pos2Z.inj_pow in H.
      rewrite Pos2Z.inj_xO in H. exact H. }
    rewrite Hs in H2. rewrite Z.pow_succ_r in H2 by lia. lia.
  - pose proof (Pos.size_gt p) as H. apply Pos2Z.pos_lt_pos in H.
    rewrite Pos2Z.inj_pow in H. exact H.
Qed.

Lemma new_location_locate X Y :
  0 < Y -> new_location Y (X mod Y) = locate X Y.
Proof.
  intros HY. pose proof (Z.mod_pos_bound X Y HY) as Hr.
  unfold new_location, locate, new_location_even, new_location_odd.
  destruct (Z.even Y) eqn:Hev.
  - reflexivity.
  - destruct (X mod Y =? 0) eqn:H0; [reflexivity|].
    f_equal.
    assert (Hodd : Z.odd Y = true) by (rewrite <- Z.negb_even, Hev; reflexivity).
    apply Z.odd_spec in Hodd. destruct Hodd as [k Hk].
    destruct (Z.compare_spec (2 * (X mod Y) + 1) Y) as [C1|C1|C1];
      destruct (Z.compare_spec (2 * (X mod Y)) Y) as [C2|C2|C2];
      try reflexivity; lia.
Qed.

Lemma locate_cases X Y :
  0 < Y ->
  (X mod Y = 0 /\ locate X Y = loc_Exact) \/
  (0 < 2 * (X mod Y) < Y /\ locate X Y = loc_Inexact Lt) \/
  (2 * (X mod Y) = Y /\ locate X Y = loc_Inexact Eq) \/
  (Y < 2 * (X mod Y) /\ locate X Y = loc_Inexact Gt).
Proof.
  intros HY. pose proof (Z.mod_pos_bound X Y HY) as Hr. unfold locate.
  destruct (X mod Y =? 0) eqn:H0.
  - left. apply Z.eqb_eq in H0. auto.
  - apply Z.eqb_neq in H0. right.
    destruct (Z.compare_spec (2 * (X mod Y)) Y) as [C|C|C].
    + right; left. auto.
    + left. split; [lia | reflexivity].
    + right; right. split; [lia | reflexivity].
Qed.

Lemma shr_1_nonneg m r s :
  0 <= m ->
  shr_1 (Build_shr_record m r s) = Build_shr_record (m / 2) (Z.odd m) (r || s).
Proof.
  intros Hm. destruct m as [|p|p]; [reflexivity| |lia].
  destruct p as [p|p|]; unfold shr_1; f_equal; try reflexivity.
  - rewrite Pos2Z.inj_xI. apply Z.div_unique with (r := 1); lia.
  - rewrite Pos2Z.inj_xO. apply Z.div_unique with (r := 0); lia.
Qed.

Lemma loc_of_shr_record_of_loc m l :
  loc_of_shr_record (shr_record_of_loc m l) = l /\ shr_m (shr_record_of_loc m l) = m.
Proof. destruct l as [|[]]; split; reflexivity. Qed.

Lemma shr_1_inv mrs X Y :
  0 < Y -> 0 <= X -> shr_inv mrs X Y -> shr_inv (shr_1 mrs) X (2 * Y).
Proof.
  intros HY HX [Hm Hl].
  assert (Hq : X / (2 * Y) = (X / Y) / 2).
  { rewrite (Z.mul_comm 2 Y). symmetry. apply Z.div_div; lia. }
  assert (Hr : X mod (2 * Y) = X mod Y + Y * ((X / Y) mod 2)).
  { rewrite (Z.mul_comm 2 Y). apply Z.rem_mul_r; lia. }
  pose proof (Z.mod_pos_bound X Y HY) as Hb.
  assert (Hq0 : 0 <= X / Y) by (apply Z.div_pos; lia).
  destruct mrs as [m r s]; simpl in Hm, Hl. subst m.
  rewrite shr_1_nonneg by exact Hq0.
  split; [simpl; symmetry; exact Hq|].
  rewrite Zmod_odd in Hr.
  destruct (Z.odd (X / Y));
  destruct (locate_cases X (2 * Y) ltac:(lia)) as [[C L]|[[C L]|[[C L]|[C L]]]];
  destruct (locate_cases X Y HY) as [[C' L']|[[C' L']|[[C' L']|[C' L']]]];
  rewrite L' in Hl; rewrite L;
  destruct r, s; simpl in Hl; try discriminate Hl; simpl; try reflexivity;
  exfalso; lia.
Qed.

Lemma iter_shr_inv p : forall mrs X Y,
  0 < Y -> 0 <= X -> shr_inv mrs X Y ->
  shr_inv (iter_pos shr_1 p mrs) X (2 ^ Zpos p * Y).
Proof.
  induction p as [p IH|p IH|]; intros mrs X Y HY HX H; simpl iter_pos.
  - replace (2 ^ Zpos p~1 * Y) with (2 ^ Zpos p * (2 ^ Zpos p * (2 * Y))).
    + assert (0 < 2 ^ Zpos p) by (apply Z.pow_pos_nonneg; lia).
      apply IH; [nia|lia|]. apply IH; [lia|lia|]. now apply shr_1_inv.
    + replace (Zpos p~1) with (Zpos p + Zpos p + 1) by lia.
      rewrite !Z.pow_add_r by lia. change (2 ^ 1) with 2. ring.
  - replace (2 ^ Zpos p~0 * Y) with (2 ^ Zpos p * (2 ^ Zpos p * Y)).
    + assert (0 < 2 ^ Zpos p) by (apply Z.pow_pos_nonneg; lia).
      apply IH; [nia|lia|]. now apply IH.
    + replace (Zpos p~0) with (Zpos p + Zpos p) by lia.
      rewrite !Z.pow_add_r by lia. ring.
  - change (2 ^ 1) with 2. now apply shr_1_inv.
Qed.

Lemma shr_spec mrs e n X Y :
  0 < Y -> 0 <= X -> shr_inv mrs X Y ->
  shr_inv (fst (shr mrs e n)) X (2 ^ Z.max 0 n * Y) /\
  snd (shr mrs e n) = e + Z.max 0 n.
Proof.
  intros HY HX H. destruct n as [|p|p]; unfold shr, fst, snd.
  - rewrite Z.max_l by lia. change (2 ^ 0) with 1. rewrite Z.mul_1_l.
    split; [exact H|lia].
  - rewrite Z.max_r by lia. split; [|reflexivity]. now apply iter_shr_inv.
  - rewrite Z.max_l by lia. change (2 ^ 0) with 1. rewrite Z.mul_1_l.
    split; [exact H|lia].
Qed.

Lemma Zdigits2_le_iff m k :
  0 <= m -> 0 <= k -> (Zdigits2 m <= k <-> m < 2 ^ k).
Proof.
  intros Hm Hk. destruct m as [|p|p]; [|clear Hm|lia].
  - simpl. split; intros; [apply Z.pow_pos_nonneg|]; lia.
  - pose proof (Zdigits2_bounds p) as [Hlo Hhi]. split; intros H.
    + eapply Z.lt_le_trans; [exact Hhi|]. apply Z.pow_le_mono_r; lia.
    + destruct (Z.le_gt_cases (Zdigits2 (Zpos p)) k) as [|Hgt]; [assumption|].
      exfalso. assert (2 ^ k <= 2 ^ (Zdigits2 (Zpos p) - 1))
        by (apply Z.pow_le_mono_r; lia). lia.
Qed.

Lemma rne_bounds X Y : 0 < Y -> X / Y <= rne X Y <= X / Y + 1.
Proof.
  intros HY. unfold rne.
  destruct (locate X Y) as [|[]]; simpl; try lia.
  destruct (Z.even (X / Y)); lia.
Qed.

Lemma quotient_below_2p53 X D n :
  0 < D -> 0 <= X -> 0 <= n -> Zdigits2 (X / D) - 53 <= n ->
  X / (2 ^ n * D) < 2 ^ 53.
Proof.
  intros HD HX Hn Hd.
  assert (H2n : 0 < 2 ^ n) by (apply Z.pow_pos_nonneg; lia).
  rewrite (Z.mul_comm (2 ^ n) D), <- Z.div_div by lia.
  assert (Hq : 0 <= X / D) by (apply Z.div_pos; lia).
  apply Z.div_lt_upper_bound; [lia|].
  rewrite <- Z.pow_add_r by lia.
  apply Zdigits2_le_iff; lia.
Qed.

Lemma bra_spec X D e :
  0 < D -> 0 <= X ->
  let n := Z.max 0 (Z.max (Zdigits2 (X / D) - 53) (-1074 - e)) in
  let m1 := rne X (2 ^ n * D) in
  exists k,
    0 <= k <= 1 /\ m1 = m1 / 2 ^ k * 2 ^ k /\ (k = 1 -> m1 = 2 ^ 53) /\
    binary_round_aux 53 1024 false (X / D) e (locate X D) =
    match m1 / 2 ^ k with
    | Z0 => S754_zero false
    | Zpos m =>
        if e + n + k <=? 971 then S754_finite false m (e + n + k)
        else S754_infinity false
    | Zneg _ => S754_nan
    end.
Proof.
  intros HD HX0 n m1.
  assert (Hn0 : 0 <= n) by (unfold n; lia).
  assert (H2n : 0 < 2 ^ n) by (apply Z.pow_pos_nonneg; lia).
  assert (HY : 0 < 2 ^ n * D) by nia.
  assert (HQ : X / (2 ^ n * D) < 2 ^ 53)
    by (apply quotient_below_2p53; unfold n; lia).
  assert (HQ0 : 0 <= X / (2 ^ n * D)) by (apply Z.div_pos; lia).
  pose proof (rne_bounds X (2 ^ n * D) HY) as Hm1. fold m1 in Hm1.
  set (k := Z.max 0 (Z.max (Zdigits2 m1 - 53) (-1074 - (e + n)))).
  assert (Hd1 : Zdigits2 m1 <= 54).
  { apply Zdigits2_le_iff; lia. }
  assert (Hk : 0 <= k <= 1) by (unfold k, n; lia).
  assert (Hk1 : k = 1 -> m1 = 2 ^ 53).
  { intros Hk1. assert (Hd : ~ Zdigits2 m1 <= 53) by (unfold k, n in Hk1; lia).
    rewrite Zdigits2_le_iff in Hd by lia. lia. }
  exists k. split; [exact Hk|].
  assert (Hdiv : m1 = m1 / 2 ^ k * 2 ^ k).
  { destruct (Z.eq_dec k 1) as [E|E].
    - rewrite E, (Hk1 E). reflexivity.
    - assert (E0 : k = 0) by lia. rewrite E0. change (2 ^ 0) with 1.
      rewrite Z.div_1_r. lia. }
  split; [exact Hdiv|]. split; [exact Hk1|].
  unfold binary_round_aux, shr_fexp.
  replace (fexp 53 1024 (Zdigits2 (X / D) + e) - e)
    with (Z.max (Zdigits2 (X / D) - 53) (-1074 - e))
    by (unfold fexp, emin; lia).
  assert (I0 : shr_inv (shr_record_of_loc (X / D) (locate X D)) X D).
  { destruct (loc_of_shr_record_of_loc (X / D) (locate X D)). now split. }
  destruct (shr_spec _ e (Z.max (Zdigits2 (X / D) - 53) (-1074 - e)) X D HD HX0 I0)
    as [[I1m I1l] E1].
  destruct (shr (shr_record_of_loc (X / D) (locate X D)) e
              (Z.max (Zdigits2 (X / D) - 53) (-1074 - e))) as [mrs' e'].
  simpl fst in I1m, I1l; simpl snd in E1. fold n in I1m, I1l, E1.
  rewrite I1m, I1l. fold (rne X (2 ^ n * D)). fold m1. subst e'.
  replace (fexp 53 1024 (Zdigits2 m1 + (e + n)) - (e + n))
    with (Z.max (Zdigits2 m1 - 53) (-1074 - (e + n)))
    by (unfold fexp, emin; lia).
  assert (I2 : shr_inv (shr_record_of_loc m1 loc_Exact) m1 1).
  { split; simpl; [now rewrite Z.div_1_r|].
    unfold locate. now rewrite Z.mod_1_r. }
  destruct (shr_spec _ (e + n) (Z.max (Zdigits2 m1 - 53) (-1074 - (e + n)))
              m1 1 ltac:(lia) ltac:(lia) I2) as [[I3m _] E3].
  destruct (shr (shr_record_of_loc m1 loc_Exact) (e + n)
              (Z.max (Zdigits2 m1 - 53) (-1074 - (e + n)))) as [mrs'' e''].
  simpl fst in I3m; simpl snd in E3. fold k in I3m, E3.
  rewrite I3m, Z.mul_1_r. subst e''. reflexivity.
Qed.

Lemma rne_down X Y : 0 < Y -> 2 * (X mod Y) < Y -> rne X Y = X / Y.
Proof.
  intros HY H. unfold rne.
  destruct (locate_cases X Y HY) as [[C L]|[[C L]|[[C L]|[C L]]]];
    rewrite L; simpl; try reflexivity; lia.
Qed.

Lemma quotient_above_2p52 X D n :
  0 < D -> 0 <= X -> 0 <= n -> n = Zdigits2 (X / D) - 53 ->
  2 ^ 52 <= X / (2 ^ n * D).
Proof.
  intros HD HX Hn Hd.
  assert (H2n : 0 < 2 ^ n) by (apply Z.pow_pos_nonneg; lia).
  rewrite (Z.mul_comm (2 ^ n) D), <- Z.div_div by lia.
  apply Z.div_le_lower_bound; [lia|].
  rewrite <- Z.pow_add_r by lia.
  destruct (X / D) as [|p|p] eqn:E.
  - simpl in Hd. lia.
  - pose proof (Zdigits2_bounds p) as [Hlo _].
    replace (n + 52) with (Zdigits2 (Zpos p) - 1) by lia. exact Hlo.
  - assert (0 <= X / D) by (apply Z.div_pos; lia). lia.
Qed.

Lemma grid_coarse q r Y M K m1 :
  0 < Y -> 0 <= r < Y -> 0 <= q < 2 ^ 53 -> 2 ^ 52 <= M -> 1 <= K ->
  2 * (Y * q + r) < (2 * M + 1) * Y * K ->
  q <= m1 <= q + 1 -> (2 * r < Y -> m1 = q) ->
  m1 <= M * K.
Proof.
  intros HY Hr Hq HM HK Hlt Hm1 Hdown.
  destruct (Z.eq_dec K 1) as [K1|K1].
  - subst K. rewrite !Z.mul_1_r in *.
    assert (HqM : q <= M).
    { destruct (Z.le_gt_cases q M) as [|Hgt]; [assumption|exfalso].
      assert (Y * (M + 1) <= Y * q) by (apply Z.mul_le_mono_nonneg_l; lia).
      lia. }
    destruct (Z.eq_dec q M) as [EQ|NE]; [|lia].
    subst q. rewrite Hdown; lia.
  - assert (M * 2 <= M * K) by (apply Z.mul_le_mono_nonneg_l; lia).
    change (2 ^ 53) with (2 ^ 52 * 2) in Hq. lia.
Qed.

Lemma grid_fine X q Y M K :
  0 < Y -> Y * q <= X -> 2 ^ 52 <= q -> M < 2 ^ 53 -> 2 <= K ->
  2 * X * K < (2 * M + 1) * Y -> False.
Proof.
  intros HY HX Hq HM HK Hlt.
  assert (H1 : Y * 2 ^ 52 <= Y * q) by (apply Z.mul_le_mono_nonneg_l; lia).
  assert (H2 : X * 2 <= X * K) by (apply Z.mul_le_mono_nonneg_l; lia).
  assert (H3 : (2 * M + 1) * Y <= (2 * 2 ^ 53 - 1) * Y)
    by (apply Z.mul_le_mono_nonneg_r; lia).
  lia.
Qed.

(** The key inequality: a value that lies below the midpoint above a
    normalised binary64 number [M * 2^E] is rounded to at most that number. *)
Lemma rne_nearest X D e M E o :
  0 < D -> 0 <= X ->
  (D = 1 \/ 2 ^ 52 <= X / D \/ e <= -1074) ->
  2 ^ 52 <= M < 2 ^ 53 -> -1074 <= E ->
  0 <= e + o -> 0 <= E + o ->
  2 * X * 2 ^ (e + o) < (2 * M + 1) * D * 2 ^ (E + o) ->
  let n := Z.max 0 (Z.max (Zdigits2 (X / D) - 53) (-1074 - e)) in
  rne X (2 ^ n * D) * 2 ^ (e + n + o) <= M * 2 ^ (E + o).
Proof.
  intros HD HX HH HM HE Heo HEo Hlt n.
  assert (Hn0 : 0 <= n) by (unfold n; lia).
  assert (HP : 0 < 2 ^ n) by (apply Z.pow_pos_nonneg; lia).
  assert (HA : 0 < 2 ^ (e + o)) by (apply Z.pow_pos_nonneg; lia).
  set (P := 2 ^ n) in *. set (A := 2 ^ (e + o)) in *.
  set (Y := P * D). assert (HY : 0 < Y) by (unfold Y; apply Z.mul_pos_pos; lia).
  assert (HQ : X / Y < 2 ^ 53)
    by (apply quotient_below_2p53; unfold n; lia).
  assert (HQ0 : 0 <= X / Y) by (apply Z.div_pos; lia).
  pose proof (rne_bounds X Y HY) as Hm1.
  pose proof (Z.div_mod X Y ltac:(lia)) as Hdm.
  pose proof (Z.mod_pos_bound X Y HY) as Hrb.
  replace (2 ^ (e + n + o)) with (A * P)
    by (unfold A, P; rewrite <- Z.pow_add_r by lia; f_equal; lia).
  destruct (Z.le_gt_cases (e + n) E) as [Hc|Hc].
  - (* the bound lies on the grid of the result, or on a coarser one *)
    set (K := 2 ^ (E - (e + n))).
    assert (HK : 0 < K) by (apply Z.pow_pos_nonneg; lia).
    assert (HB : 2 ^ (E + o) = A * P * K).
    { unfold A, P, K. rewrite <- !Z.pow_add_r by lia. f_equal. lia. }
    rewrite HB in Hlt. rewrite HB.
    assert (Hlt' : 2 * X < (2 * M + 1) * Y * K).
    { unfold Y. apply Z.mul_lt_mono_pos_r with (p := A); [exact HA|].
      replace ((2 * M + 1) * (P * D) * K * A)
        with ((2 * M + 1) * D * (A * P * K)) by ring.
      replace (2 * X * A) with (2 * X * A) in Hlt by ring. exact Hlt. }
    assert (Hgoal : rne X Y <= M * K).
    { apply (grid_coarse (X / Y) (X mod Y) Y M K); try lia.
      intros Hd. apply rne_down; [exact HY|exact Hd]. }
    replace (M * (A * P * K)) with (M * K * (A * P)) by ring.
    apply Z.mul_le_mono_nonneg_r; [|exact Hgoal].
    apply Z.lt_le_incl, Z.mul_pos_pos; lia.
  - (* the bound lies on a finer grid: it is below the result's binade *)
    set (K := 2 ^ (e + n - E)).
    assert (HK : 2 <= K).
    { unfold K. change 2 with (2 ^ 1) at 1. apply Z.pow_le_mono_r; lia. }
    assert (HBpos : 0 < 2 ^ (E + o)) by (apply Z.pow_pos_nonneg; lia).
    assert (HB : A * P = 2 ^ (E + o) * K).
    { unfold A, P, K. rewrite <- !Z.pow_add_r by lia. f_equal. lia. }
    set (B := 2 ^ (E + o)) in *.
    assert (Hlt' : 2 * X * K < (2 * M + 1) * Y).
    { unfold Y. apply Z.mul_lt_mono_pos_r with (p := B); [exact HBpos|].
      replace (2 * X * K * B) with (2 * X * (A * P)) by (rewrite HB; ring).
      replace (2 * X * (A * P)) with (2 * X * A * P) by ring.
      replace ((2 * M + 1) * (P * D) * B) with ((2 * M + 1) * D * B * P) by ring.
      apply Z.mul_lt_mono_pos_r; [exact HP|exact Hlt]. }
    assert (Hcases : (n = 0 /\ D = 1) \/ 2 ^ 52 <= X / Y).
    { destruct (Z.eq_dec n (Zdigits2 (X / D) - 53)) as [En|En].
      - right. apply quotient_above_2p52; lia.
      - assert (n = 0) by (unfold n in *; lia).
        destruct HH as [HH|[HH|HH]]; [left; lia| |unfold n in *; lia].
        exfalso. assert (Hd : Zdigits2 (X / D) <= 52) by (unfold n in *; lia).
        rewrite Zdigits2_le_iff in Hd by (try apply Z.div_pos; lia). lia. }
    destruct Hcases as [[N0 D1]|HQ52].
    + assert (HY1 : Y = 1) by (unfold Y, P; rewrite N0, D1; reflexivity).
      assert (Hr : rne X Y = X).
      { rewrite rne_down; [|lia|]; rewrite HY1.
        - apply Z.div_1_r.
        - rewrite Z.mod_1_r. lia. }
      rewrite Hr. replace (X * (A * P)) with (X * K * B) by (rewrite HB; ring).
      apply Z.mul_le_mono_nonneg_r; [lia|].
      rewrite HY1, Z.mul_1_r in Hlt'. lia.
    + exfalso. apply (grid_fine X (X / Y) Y M K); try lia.
Qed.

Lemma bra_nearest X D e M E o :
  0 < D -> 0 <= X ->
  (D = 1 \/ 2 ^ 52 <= X / D \/ e <= -1074) ->
  2 ^ 52 <= M < 2 ^ 53 -> -1074 <= E <= 900 ->
  0 <= e + o -> 0 <= E + o ->
  2 * X * 2 ^ (e + o) < (2 * M + 1) * D * 2 ^ (E + o) ->
  below o (M * 2 ^ (E + o))
    (binary_round_aux 53 1024 false (X / D) e (locate X D)).
Proof.
  intros HD HX HH HM HE Heo HEo Hlt.
  destruct (bra_spec X D e HD HX) as [k [Hk [Hdiv [_ Heq]]]].
  pose proof (rne_nearest X D e M E o HD HX HH HM ltac:(lia) Heo HEo Hlt) as Hle.
  cbv zeta in Hle. rewrite Heq. clear Heq.
  set (n := Z.max 0 (Z.max (Zdigits2 (X / D) - 53) (-1074 - e))) in *.
  assert (Hn0 : 0 <= n) by (unfold n; lia).
  set (m1 := rne X (2 ^ n * D)) in *.
  assert (HP : 0 < 2 ^ (e + n + o)) by (apply Z.pow_pos_nonneg; lia).
  assert (HK : 0 < 2 ^ k) by (apply Z.pow_pos_nonneg; lia).
  destruct (m1 / 2 ^ k) as [|m|m] eqn:Em.
  - simpl. assert (0 < 2 ^ (E + o)) by (apply Z.pow_pos_nonneg; lia). nia.
  - assert (Hm1 : 1 <= m1) by nia.
    assert (He : e + n <= E + 52).
    { assert (H1 : 2 ^ (e + n + o) < 2 ^ (E + o + 53)).
      { rewrite (Z.pow_add_r 2 (E + o) 53) by lia.
        assert (0 < 2 ^ (E + o)) by (apply Z.pow_pos_nonneg; lia). nia. }
      apply Z.pow_lt_mono_r_iff in H1; lia. }
    replace (e + n + k <=? 971) with true by (symmetry; apply Z.leb_le; lia).
    split; [lia|].
    replace (e + n + k + o) with (k + (e + n + o)) by lia.
    rewrite Z.pow_add_r by lia. rewrite Z.mul_assoc, (Z.mul_comm (Zpos m)).
    rewrite Z.mul_comm in Hdiv. rewrite <- Hdiv. exact Hle.
  - exfalso. assert (0 <= m1 / 2 ^ k); [|lia].
    apply Z.div_pos; [|lia].
    assert (HY : 0 < 2 ^ n * D).
    { assert (0 < 2 ^ n) by (apply Z.pow_pos_nonneg; lia). nia. }
    pose proof (rne_bounds X (2 ^ n * D) HY).
    assert (0 <= X / (2 ^ n * D)) by (apply Z.div_pos; lia).
    unfold m1. lia.
Qed.

Lemma locate_exact X : locate X 1 = loc_Exact.
Proof. unfold locate. now rewrite Z.mod_1_r. Qed.

(** Multiplication of two positive numbers. *)
Lemma mul_nearest mx ex my ey M E o :
  2 ^ 52 <= M < 2 ^ 53 -> -1074 <= E <= 900 ->
  0 <= ex + ey + o -> 0 <= E + o ->
  2 * (Zpos mx * Zpos my) * 2 ^ (ex + ey + o) < (2 * M + 1) * 2 ^ (E + o) ->
  below o (M * 2 ^ (E + o))
    (SFmul 53 1024 (S754_finite false mx ex) (S754_finite false my ey)).
Proof.
  intros HM HE Heo HEo Hlt. unfold SFmul, xorb.
  rewrite <- (locate_exact (Zpos (mx * my))).
  rewrite <- (Z.div_1_r (Zpos (mx * my))) at 1.
  apply bra_nearest; lia.
Qed.

Lemma shl_align_spec m e e' :
  let '(m', e'') := shl_align m e e' in
  e'' = Z.min e e' /\ Zpos m' = Zpos m * 2 ^ (e - e'').
Proof.
  unfold shl_align. destruct (e' - e) as [|p|p] eqn:Ed.
  - split; [lia|]. replace (e - e) with 0 by lia. change (2 ^ 0) with 1. lia.
  - split; [lia|]. replace (e - e) with 0 by lia. change (2 ^ 0) with 1. lia.
  - split; [lia|]. replace (e - e') with (Zpos p) by lia.
    clear. revert m. induction p using Pos.peano_ind; intros m.
    + change (2 ^ 1) with 2. change (Pos.iter xO m 1) with (m~0)%positive. lia.
    + rewrite Pos.iter_succ. rewrite Pos2Z.inj_xO, IHp.
      rewrite Pos2Z.inj_succ, Z.pow_succ_r by lia. ring.
Qed.

Lemma fexp_ge d : -1074 <= fexp 53 1024 d.
Proof. unfold fexp, emin. lia. Qed.

Lemma bround_nearest m e M E o :
  2 ^ 52 <= M < 2 ^ 53 -> -1074 <= E <= 900 ->
  0 <= e + o -> 1074 <= o -> 0 <= E + o ->
  2 * Zpos m * 2 ^ (e + o) < (2 * M + 1) * 2 ^ (E + o) ->
  below o (M * 2 ^ (E + o)) (binary_round 53 1024 false m e).
Proof.
  intros HM HE Heo Ho HEo Hlt. unfold binary_round.
  pose proof (shl_align_spec m e (fexp 53 1024 (Zpos (digits2_pos m) + e))) as Hs.
  pose proof (fexp_ge (Zpos (digits2_pos m) + e)) as Hf.
  destruct (shl_align m e (fexp 53 1024 (Zpos (digits2_pos m) + e))) as [mz ez].
  destruct Hs as [Hez Hmz].
  rewrite <- (locate_exact (Zpos mz)).
  rewrite <- (Z.div_1_r (Zpos mz)) at 1.
  apply bra_nearest; try lia.
  rewrite Hmz, Z.mul_1_r.
  replace (2 * (Zpos m * 2 ^ (e - ez)) * 2 ^ (ez + o))
    with (2 * Zpos m * (2 ^ (e - ez) * 2 ^ (ez + o))) by ring.
  rewrite <- Z.pow_add_r by lia.
  replace (e - ez + (ez + o)) with (e + o) by lia. exact Hlt.
Qed.

(** Addition of two positive numbers. *)
Lemma add_nearest mx ex my ey M E o :
  2 ^ 52 <= M < 2 ^ 53 -> -1074 <= E <= 900 ->
  0 <= ex + o -> 0 <= ey + o -> 1074 <= o -> 0 <= E + o ->
  2 * (Zpos mx * 2 ^ (ex + o) + Zpos my * 2 ^ (ey + o))
    < (2 * M + 1) * 2 ^ (E + o) ->
  below o (M * 2 ^ (E + o))
    (SFadd 53 1024 (S754_finite false mx ex) (S754_finite false my ey)).
Proof.
  intros HM HE Hxo Hyo Ho HEo Hlt. unfold SFadd, cond_Zopp.
  pose proof (shl_align_spec mx ex (Z.min ex ey)) as Hx.
  pose proof (shl_align_spec my ey (Z.min ex ey)) as Hy.
  destruct (shl_align mx ex (Z.min ex ey)) as [mx' ex'].
  destruct (shl_align my ey (Z.min ex ey)) as [my' ey'].
  destruct Hx as [Hex Hmx]. destruct Hy as [Hey Hmy].
  unfold fst. change (Zpos mx' + Zpos my') with (Zpos (mx' + my')).
  unfold binary_normalize.
  apply bround_nearest; try lia.
  rewrite Pos2Z.inj_add, Hmx, Hmy.
  replace ex' with (Z.min ex ey) by lia. replace ey' with (Z.min ex ey) by lia.
  set (ez := Z.min ex ey).
  replace (2 * (Zpos mx * 2 ^ (ex - ez) + Zpos my * 2 ^ (ey - ez)) * 2 ^ (ez + o))
    with (2 * (Zpos mx * (2 ^ (ex - ez) * 2 ^ (ez + o))
               + Zpos my * (2 ^ (ey - ez) * 2 ^ (ez + o)))) by ring.
  rewrite <- !Z.pow_add_r by lia.
  replace (ex - ez + (ez + o)) with (ex + o) by lia.
  replace (ey - ez + (ez + o)) with (ey + o) by lia. exact Hlt.
Qed.

(** Division of two positive numbers. *)
Lemma div_nearest mx ex my ey M E o :
  2 ^ 52 <= M < 2 ^ 53 -> -1074 <= E <= 900 ->
  0 <= ex - ey + o -> 1074 <= o -> 0 <= E + o ->
  2 * Zpos mx * 2 ^ (ex - ey + o) < (2 * M + 1) * Zpos my * 2 ^ (E + o) ->
  below o (M * 2 ^ (E + o))
    (SFdiv 53 1024 (S754_finite false mx ex) (S754_finite false my ey)).
Proof.
  intros HM HE Hxo Ho HEo Hlt. unfold SFdiv, SFdiv_core_binary, xorb.
  set (d1 := Zdigits2 (Zpos mx)). set (d2 := Zdigits2 (Zpos my)).
  pose proof (fexp_ge (d1 + ex - (d2 + ey))) as Hf.
  set (e' := Z.min (fexp 53 1024 (d1 + ex - (d2 + ey))) (ex - ey)) in *.
  set (s := ex - ey - e').
  assert (Hs : 0 <= s) by (unfold s, e'; lia).
  set (m' := match s with
             | 0 => Zpos mx
             | Zpos _ => Z.shiftl (Zpos mx) s
             | Zneg _ => 0
             end).
  assert (Hm' : m' = Zpos mx * 2 ^ s).
  { unfold m'. destruct s as [|p|p] eqn:Es.
    - change (2 ^ 0) with 1. lia.
    - apply Z.shiftl_mul_pow2. lia.
    - lia. }
  assert (H2s : 0 < 2 ^ s) by (apply Z.pow_pos_nonneg; lia).
  destruct (Z.div_eucl m' (Zpos my)) as [q r] eqn:Eqr.
  assert (Hq : q = m' / Zpos my) by (unfold Z.div; now rewrite Eqr).
  assert (Hr : r = m' mod Zpos my) by (unfold Z.modulo; now rewrite Eqr).
  rewrite Hq, Hr, new_location_locate by lia.
  apply bra_nearest; try lia.
  - (* the quotient has 53 digits, unless the result is subnormal *)
    destruct (Z.le_gt_cases e' (-1074)) as [Hc|Hc]; [right; right; exact Hc|].
    right; left.
    assert (Hd : d2 + 53 <= d1 + s) by (unfold s, e', fexp, emin in *; lia).
    pose proof (Zdigits2_bounds mx) as [Hlo _]. fold d1 in Hlo.
    pose proof (Zdigits2_bounds my) as [_ Hhi]. fold d2 in Hhi.
    assert (Hd1 : 1 <= d1) by (unfold d1; simpl; lia).
    assert (Hd2 : 1 <= d2) by (unfold d2; simpl; lia).
    apply Z.div_le_lower_bound; [lia|].
    rewrite Hm'.
    assert (Hp : 2 ^ (d2 + 52) <= 2 ^ (d1 - 1) * 2 ^ s).
    { rewrite <- Z.pow_add_r by lia. apply Z.pow_le_mono_r; lia. }
    rewrite Z.pow_add_r in Hp by lia. nia.
  - rewrite Hm'.
    replace (2 * (Zpos mx * 2 ^ s) * 2 ^ (e' + o))
      with (2 * Zpos mx * (2 ^ s * 2 ^ (e' + o))) by ring.
    rewrite <- Z.pow_add_r by lia.
    replace (s + (e' + o)) with (ex - ey + o) by (unfold s; lia). exact Hlt.
Qed.

(** [float(N)] is exact for [0 < N < 2^53]. *)
Lemma of_Z_exact N :
  0 < N < 2 ^ 53 ->
  exists m e,
    binary_normalize 53 1024 N 0 false = S754_finite false m e /\
    -52 <= e <= 0 /\ Zpos m = N * 2 ^ (- e).
Proof.
  intros HN. destruct N as [|p|p]; try lia.
  unfold binary_normalize, binary_round.
  pose proof (shl_align_spec p 0 (fexp 53 1024 (Zpos (digits2_pos p) + 0))) as Hs.
  destruct (shl_align p 0 (fexp 53 1024 (Zpos (digits2_pos p) + 0))) as [mz ez].
  destruct Hs as [Hez Hmz].
  pose proof (Zdigits2_bounds p) as [Hlo Hhi].
  change (Zdigits2 (Zpos p)) with (Zpos (digits2_pos p)) in Hlo, Hhi.
  set (d := Zpos (digits2_pos p)) in *.
  assert (Hd53 : Zdigits2 (Zpos p) <= 53) by (apply Zdigits2_le_iff; lia).
  change (Zdigits2 (Zpos p)) with d in Hd53.
  assert (Hd : 1 <= d <= 53) by (split; [unfold d; lia|exact Hd53]).
  assert (Hezv : ez = d - 53) by (unfold fexp, emin in Hez; lia).
  assert (HX : Zpos mz < 2 ^ 53).
  { rewrite Hmz. replace (0 - ez) with (53 - d) by lia.
    replace 53 with (d + (53 - d)) at 2 by lia.
    rewrite Z.pow_add_r by lia.
    assert (0 < 2 ^ (53 - d)) by (apply Z.pow_pos_nonneg; lia). nia. }
  destruct (bra_spec (Zpos mz) 1 ez ltac:(lia) ltac:(lia))
    as [k [Hk [Hdiv [Hk1 Heq]]]].
  rewrite locate_exact in Heq.
  rewrite Z.div_1_r in Hdiv, Hk1, Heq.
  assert (Hn : Z.max 0 (Z.max (Zdigits2 (Zpos mz) - 53) (-1074 - ez)) = 0).
  { assert (Zdigits2 (Zpos mz) <= 53) by (apply Zdigits2_le_iff; lia). lia. }
  rewrite Hn in Hdiv, Hk1, Heq. change (2 ^ 0 * 1) with 1 in Hdiv, Hk1, Heq.
  assert (Hr : rne (Zpos mz) 1 = Zpos mz).
  { rewrite rne_down; [apply Z.div_1_r|lia|rewrite Z.mod_1_r; lia]. }
  rewrite Hr in Hdiv, Hk1, Heq.
  assert (k = 0).
  { destruct (Z.eq_dec k 1) as [E|E]; [|lia]. specialize (Hk1 E). lia. }
  subst k. change (2 ^ 0) with 1 in Heq. rewrite Z.div_1_r in Heq.
  replace (ez + 0 + 0 <=? 971) with true in Heq
    by (symmetry; apply Z.leb_le; lia).
  exists mz, (ez + 0 + 0). split; [exact Heq|]. split; [lia|].
  rewrite Hmz. f_equal. f_equal. lia.
Qed.

(** ** The luminance of a pixel is at most that of white *)

Lemma add_below x y Bx By M E :
  below 1074 Bx x -> below 1074 By y ->
  2 ^ 52 <= M < 2 ^ 53 -> -1074 <= E <= 900 ->
  Bx + By <= M * 2 ^ (E + 1074) ->
  below 1074 (M * 2 ^ (E + 1074)) (F.add x y).
Proof.
  intros Hx Hy HM HE Hsum.
  assert (HP : 0 < 2 ^ (E + 1074)) by (apply Z.pow_pos_nonneg; lia).
  destruct x as [sx|sx| |[|] mx ex]; unfold below in Hx; try contradiction;
  destruct y as [sy|sy| |[|] my ey]; unfold below in Hy; try contradiction.
  - unfold F.add, SFadd. destruct sx, sy; unfold below; nia.
  - unfold F.add, SFadd, below. split; [lia|]. lia.
  - unfold F.add, SFadd, below. split; [lia|]. lia.
  - unfold F.add, F.prec, F.emax. apply add_nearest; lia.
Qed.

(** A product [c * v] of [luminance], for a channel value below 255. *)
Lemma chan_below cm ce M E v :
  0 <= v <= 254 -> 0 <= ce - 52 + 1074 ->
  2 ^ 52 <= M < 2 ^ 53 -> -1074 <= E <= 900 ->
  2 * (Zpos cm * 254) * 2 ^ (ce + 1074) < (2 * M + 1) * 2 ^ (E + 1074) ->
  below 1074 (M * 2 ^ (E + 1074))
    (F.mul (S754_finite false cm ce) (F.of_Z v)).
Proof.
  intros Hv Hce HM HE Hlt.
  assert (HP : 0 < 2 ^ (E + 1074)) by (apply Z.pow_pos_nonneg; lia).
  destruct (Z.eq_dec v 0) as [V0|V0].
  - subst v. unfold F.mul, F.of_Z, binary_normalize, SFmul, below, xorb. nia.
  - destruct (of_Z_exact v ltac:(lia)) as [mv [ev [Hf [Hev Hmv]]]].
    unfold F.mul, F.of_Z, F.prec, F.emax. rewrite Hf.
    apply mul_nearest; try lia.
    rewrite Hmv.
    replace (ce + ev + 1074) with ((ce + ev + 1074) + 0) by lia.
    assert (Hpow : 2 ^ (- ev) * 2 ^ (ce + ev + 1074) = 2 ^ (ce + 1074)).
    { rewrite <- Z.pow_add_r by lia. f_equal. lia. }
    replace (2 * (Zpos cm * (v * 2 ^ (- ev))) * 2 ^ (ce + ev + 1074 + 0))
      with (2 * (Zpos cm * v) * (2 ^ (- ev) * 2 ^ (ce + ev + 1074)))
      by (rewrite Z.add_0_r; ring).
    rewrite Hpow.
    assert (HQ : 0 < 2 ^ (ce + 1074)) by (apply Z.pow_pos_nonneg; lia).
    eapply Z.le_lt_trans; [|exact Hlt].
    apply Z.mul_le_mono_nonneg_r; [lia|]. nia.
Qed.

Lemma cR_eq : cR = S754_finite false 7659722246231740 (-55).
Proof. vm_compute. reflexivity. Qed.
Lemma cG_eq : cG = S754_finite false 6441948906990757 (-53).
Proof. vm_compute. reflexivity. Qed.
Lemma cB_eq : cB = S754_finite false 5202558289538397 (-56).
Proof. vm_compute. reflexivity. Qed.

Lemma chanR v :
  0 <= v <= 255 ->
  (v = 255 /\ F.mul cR (F.of_Z v) = topR) \/
  below 1074 (sc (7629801456207397 - 2 ^ 43) (-47)) (F.mul cR (F.of_Z v)).
Proof.
  intros Hv. destruct (Z.eq_dec v 255) as [E|E].
  - left. subst v. split; [reflexivity|]. vm_compute. reflexivity.
  - right. rewrite cR_eq. apply chan_below; lia.
Qed.

Lemma chanG v :
  0 <= v <= 255 ->
  (v = 255 /\ F.mul cG (F.of_Z v) = topG) \/
  below 1074 (sc (6416785044072824 - 2 ^ 41) (-45)) (F.mul cG (F.of_Z v)).
Proof.
  intros Hv. destruct (Z.eq_dec v 255) as [E|E].
  - left. subst v. split; [reflexivity|]. vm_compute. reflexivity.
  - right. rewrite cG_eq. apply chan_below; lia.
Qed.

Lemma chanB v :
  0 <= v <= 255 ->
  (v = 255 /\ F.mul cB (F.of_Z v) = topB) \/
  below 1074 (sc (5182235796219888 - 2 ^ 44) (-48)) (F.mul cB (F.of_Z v)).
Proof.
  intros Hv. destruct (Z.eq_dec v 255) as [E|E].
  - left. subst v. split; [reflexivity|]. vm_compute. reflexivity.
  - right. rewrite cB_eq. apply chan_below; lia.
Qed.

Lemma below_const m e : -1074 <= e -> below 1074 (sc (Zpos m) e) (S754_finite false m e).
Proof. intros He. unfold below, sc. split; lia. Qed.

(** The luminance of every pixel is at most that of white, which is
    [255 - 2^-45] = 254.99999999999997 and not 255. *)
Lemma luminance_below r g b :
  0 <= r <= 255 -> 0 <= g <= 255 -> 0 <= b <= 255 ->
  below 1074 (sc 8972014882652159 (-45)) (luminance (r, g, b)).
Proof.
  intros Hr Hg Hb. unfold luminance.
  change (F.lit 2126 10000) with cR. change (F.lit 7152 10000) with cG.
  change (F.lit 722 10000) with cB.
  assert (HRG :
    (F.add (F.mul cR (F.of_Z r)) (F.mul cG (F.of_Z g)) = topRG) \/
    below 1074 (sc (8324235408124673 - 2 ^ 40) (-45))
      (F.add (F.mul cR (F.of_Z r)) (F.mul cG (F.of_Z g)))).
  { destruct (chanR r Hr) as [[_ ER]|BR]; destruct (chanG g Hg) as [[_ EG]|BG].
    - left. rewrite ER, EG. vm_compute. reflexivity.
    - right. rewrite ER. unfold sc.
      eapply add_below; [apply (below_const 7629801456207397 (-47)); lia
                        |exact BG|lia|lia|vm_compute; discriminate].
    - right. rewrite EG. unfold sc.
      eapply add_below; [exact BR
                        |apply (below_const 6416785044072824 (-45)); lia
                        |lia|lia|vm_compute; discriminate].
    - right. unfold sc.
      eapply add_below; [exact BR|exact BG|lia|lia|vm_compute; discriminate]. }
  destruct HRG as [ERG|BRG]; destruct (chanB b Hb) as [[_ EB]|BB].
  - rewrite ERG, EB. vm_compute. split; discriminate.
  - rewrite ERG. unfold sc.
    eapply add_below; [apply (below_const 8324235408124673 (-45)); lia
                      |exact BB|lia|lia|vm_compute; discriminate].
  - rewrite EB. unfold sc.
    eapply add_below; [exact BRG
                      |apply (below_const 5182235796219888 (-48)); lia
                      |lia|lia|vm_compute; discriminate].
  - unfold sc.
    eapply add_below; [exact BRG|exact BB|lia|lia|vm_compute; discriminate].
Qed.

(** ** The ramp index is below the length of the ramp *)

Lemma normalise x :
  0 < x < 2 ^ 53 -> exists c, 0 <= c <= 52 /\ 2 ^ 52 <= x * 2 ^ c < 2 ^ 53.
Proof.
  intros Hx. destruct x as [|p|p]; try lia.
  pose proof (Zdigits2_bounds p) as [Hlo Hhi].
  set (d := Zdigits2 (Zpos p)) in *.
  assert (Hd1 : 1 <= d) by (unfold d; simpl; lia).
  assert (Hd : d <= 53) by (apply Zdigits2_le_iff; lia).
  exists (53 - d). split; [lia|].
  assert (HP : 0 < 2 ^ (53 - d)) by (apply Z.pow_pos_nonneg; lia).
  assert (E1 : 2 ^ 52 = 2 ^ (d - 1) * 2 ^ (53 - d)).
  { rewrite <- Z.pow_add_r by lia. f_equal. lia. }
  assert (E2 : 2 ^ 53 = 2 ^ d * 2 ^ (53 - d)).
  { rewrite <- Z.pow_add_r by lia. f_equal. lia. }
  rewrite E1, E2. split; nia.
Qed.

Lemma to_int_below q B N :
  below 1126 B q -> B < N * 2 ^ 1126 ->
  exists i, F.to_int q = Ok i /\ 0 <= i < N.
Proof.
  intros Hq HB.
  assert (HG : 0 < 2 ^ 1126) by (apply Z.pow_pos_nonneg; lia).
  destruct q as [s|s| |[|] m e]; unfold below in Hq; try contradiction.
  - exists 0. split; [reflexivity|]. nia.
  - destruct Hq as [He Hv]. unfold F.to_int.
    destruct (Z.leb_spec 0 e) as [Hc|Hc].
    + exists (Zpos m * 2 ^ e). split; [reflexivity|].
      assert (0 < 2 ^ e) by (apply Z.pow_pos_nonneg; lia).
      split; [nia|].
      rewrite Z.pow_add_r in Hv by lia. nia.
    + exists (Zpos m / 2 ^ (- e)). split; [reflexivity|].
      assert (HP : 0 < 2 ^ (- e)) by (apply Z.pow_pos_nonneg; lia).
      split; [apply Z.div_pos; lia|].
      assert (HQ : 0 < 2 ^ (e + 1126)) by (apply Z.pow_pos_nonneg; lia).
      assert (EG : 2 ^ 1126 = 2 ^ (- e) * 2 ^ (e + 1126)).
      { rewrite <- Z.pow_add_r by lia. f_equal. lia. }
      pose proof (Z.mul_div_le (Zpos m) (2 ^ (- e)) HP) as Hfl.
      rewrite EG in HB.
      assert (Zpos m / 2 ^ (- e) * 2 ^ (- e) * 2 ^ (e + 1126)
              < N * 2 ^ (- e) * 2 ^ (e + 1126)) by nia.
      nia.
Qed.

Lemma of_Z_255 : F.of_Z 255 = f255.
Proof. vm_compute. reflexivity. Qed.

(** [l * nchars], for a luminance [l] of at most [255 - 2^-45]: the product
    is rounded to a number below [255 * nchars]. *)
Lemma mul_step ml el N c :
  0 <= el + 1074 ->
  Zpos ml * 2 ^ (el + 1074) <= sc 8972014882652159 (-45) ->
  1 <= N -> 0 <= c <= 52 -> 2 ^ 52 <= 255 * N * 2 ^ c < 2 ^ 53 ->
  below 1126 ((255 * N * 2 ^ c - 1) * 2 ^ (- c + 1126))
    (F.mul (S754_finite false ml el) (F.of_Z N)).
Proof.
  intros Hel Hl HN Hc Hnorm.
  assert (HN53 : 0 < N < 2 ^ 53).
  { assert (0 < 2 ^ c) by (apply Z.pow_pos_nonneg; lia). nia. }
  destruct (of_Z_exact N HN53) as [mN [eN [Hf [HeN HmN]]]].
  unfold F.mul, F.of_Z, F.prec, F.emax. rewrite Hf.
  assert (Hne : 255 * N * 2 ^ c <> 2 ^ 52).
  { intros Habs. replace (255 * N * 2 ^ c) with (255 * (N * 2 ^ c)) in Habs by ring.
    lia. }
  apply mul_nearest; try lia.
  unfold sc in Hl. change (-45 + 1074) with 1029 in Hl.
  set (H := 2 ^ 1029) in *.
  assert (HH : 0 < H) by (apply Z.pow_pos_nonneg; lia).
  set (u := 2 ^ c) in *. assert (Hu : 0 < u) by (apply Z.pow_pos_nonneg; lia).
  set (P := 2 ^ (- c + 1126)).
  assert (HP : 0 < P) by (apply Z.pow_pos_nonneg; lia).
  assert (HPu : P * u = H * 2 ^ 97).
  { unfold P, u, H. rewrite <- !Z.pow_add_r by lia. f_equal. lia. }
  set (vl := Zpos ml * 2 ^ (el + 1074)) in *.
  assert (Hvl : 0 < vl).
  { unfold vl. assert (0 < 2 ^ (el + 1074)) by (apply Z.pow_pos_nonneg; lia). nia. }
  assert (HL : 2 * (Zpos ml * Zpos mN) * 2 ^ (el + eN + 1126)
               = 2 * vl * N * 2 ^ 52).
  { rewrite HmN. unfold vl.
    replace (el + eN + 1126) with ((el + 1074) + (eN + 52)) by lia.
    rewrite Z.pow_add_r by lia.
    assert (E52 : 2 ^ (- eN) * 2 ^ (eN + 52) = 2 ^ 52).
    { rewrite <- Z.pow_add_r by lia. f_equal. lia. }
    rewrite <- E52. ring. }
  rewrite HL.
  assert (Hstep : 2 * vl * N * 2 ^ 52 <= 2 * (8972014882652159 * H) * N * 2 ^ 52).
  { apply Z.mul_le_mono_nonneg_r; [lia|].
    apply Z.mul_le_mono_nonneg_r; [lia|]. lia. }
  eapply Z.le_lt_trans; [exact Hstep|].
  apply Z.mul_lt_mono_pos_r with (p := u); [exact Hu|].
  replace ((2 * (255 * N * u - 1) + 1) * P * u)
    with ((2 * (255 * N * u - 1) + 1) * (P * u)) by ring.
  rewrite HPu.
  assert (Hk : 17592186044416 < N * u) by lia.
  change (2 ^ 52) with 4503599627370496. change (2 ^ 97) with 158456325028528675187087900672.
  nia.
Qed.

(** [p / 255], for a product [p] below [255 * nchars]: the quotient is
    rounded to a number below [nchars]. *)
Lemma div_step mp ep N c :
  0 <= ep + 1126 ->
  Zpos mp * 2 ^ (ep + 1126) <= (255 * N * 2 ^ c - 1) * 2 ^ (- c + 1126) ->
  1 <= N -> 0 <= c <= 52 -> 2 ^ 52 <= 255 * N * 2 ^ c < 2 ^ 53 ->
  exists B, B < N * 2 ^ 1126 /\
    below 1126 B (F.div (S754_finite false mp ep) f255).
Proof.
  intros Hep Hp HN Hc Hnorm.
  set (u := 2 ^ c) in *. assert (Hu : 0 < u) by (apply Z.pow_pos_nonneg; lia).
  assert (HN53 : 0 < N < 2 ^ 53) by nia.
  destruct (normalise N HN53) as [cN [HcN HnormN]].
  set (w := 2 ^ cN) in *. assert (Hw : 0 < w) by (apply Z.pow_pos_nonneg; lia).
  set (P := 2 ^ (- c + 1126)) in *.
  assert (HP : 0 < P) by (apply Z.pow_pos_nonneg; lia).
  set (G := 2 ^ 1126).
  assert (HG : 0 < G) by (apply Z.pow_pos_nonneg; lia).
  assert (HPu : P * u = G).
  { unfold P, u, G. rewrite <- !Z.pow_add_r by lia. f_equal. lia. }
  assert (Huw : 255 * u < 2 * w) by nia.
  set (vp := Zpos mp * 2 ^ (ep + 1126)) in *.
  assert (HL : 2 * Zpos mp * 2 ^ (ep - -45 + 1126) = 2 * vp * 2 ^ 45).
  { unfold vp. replace (ep - -45 + 1126) with ((ep + 1126) + 45) by lia.
    rewrite Z.pow_add_r by lia. ring. }
  unfold F.div, f255, F.prec, F.emax.
  destruct (Z.eq_dec (N * w) (2 ^ 52)) as [Epow|Epow].
  - (* [nchars] is a power of two: its predecessor is in the binade below *)
    set (Pn := 2 ^ (- cN - 1 + 1126)).
    assert (HPn : 0 < Pn) by (apply Z.pow_pos_nonneg; lia).
    assert (HPnw : 2 * Pn * w = G).
    { unfold Pn, w, G. change 2 with (2 ^ 1) at 1.
      rewrite <- !Z.pow_add_r by lia. f_equal. lia. }
    exists ((2 ^ 53 - 1) * 2 ^ (- cN - 1 + 1126)). fold Pn. split.
    + replace (N * G) with (N * w * (2 * Pn)) by (rewrite <- HPnw; ring).
      rewrite Epow. change (2 ^ 52) with 4503599627370496.
      change (2 ^ 53) with 9007199254740992. lia.
    + apply div_nearest; try lia.
      rewrite HL. fold Pn.
      apply Z.mul_lt_mono_pos_r with (p := u * w); [nia|].
      replace (2 * vp * 2 ^ 45 * (u * w)) with (2 * 2 ^ 45 * w * (vp * u)) by ring.
      assert (Hvp : vp * u <= 255 * N * u * G - G).
      { replace (255 * N * u * G - G) with ((255 * N * u - 1) * P * u)
          by (rewrite <- HPu; ring).
        apply Z.mul_le_mono_nonneg_r; [lia|exact Hp]. }
      replace ((2 * (2 ^ 53 - 1) + 1) * 8972014882652160 * Pn * (u * w))
        with ((2 * (2 ^ 53 - 1) + 1) * 8972014882652160 * u * (Pn * w)) by ring.
      assert (HPw2 : Pn * w * 2 = G) by lia.
      change (2 ^ 45) with 35184372088832. change (2 ^ 53) with 9007199254740992.
      change (2 ^ 52) with 4503599627370496 in *.
      nia.
  - set (Pn := 2 ^ (- cN + 1126)).
    assert (HPn : 0 < Pn) by (apply Z.pow_pos_nonneg; lia).
    assert (HPnw : Pn * w = G).
    { unfold Pn, w, G. rewrite <- !Z.pow_add_r by lia. f_equal. lia. }
    exists ((N * w - 1) * 2 ^ (- cN + 1126)). fold Pn. split.
    + replace (N * G) with (N * w * Pn) by (rewrite <- HPnw; ring). nia.
    + apply div_nearest; try lia.
      rewrite HL. fold Pn.
      apply Z.mul_lt_mono_pos_r with (p := u * w); [nia|].
      replace (2 * vp * 2 ^ 45 * (u * w)) with (2 * 2 ^ 45 * w * (vp * u)) by ring.
      assert (Hvp : vp * u <= 255 * N * u * G - G).
      { replace (255 * N * u * G - G) with ((255 * N * u - 1) * P * u)
          by (rewrite <- HPu; ring).
        apply Z.mul_le_mono_nonneg_r; [lia|exact Hp]. }
      replace ((2 * (N * w - 1) + 1) * 8972014882652160 * Pn * (u * w))
        with ((2 * (N * w - 1) + 1) * 8972014882652160 * u * (Pn * w)) by ring.
      rewrite HPnw.
      change (2 ^ 45) with 35184372088832.
      change (2 ^ 52) with 4503599627370496 in *.
      nia.
Qed.

Lemma ramp_index_in_range l N :
  below 1074 (sc 8972014882652159 (-45)) l -> 1 <= N < 2 ^ 45 ->
  exists i, ramp_index l N = Ok i /\ 0 <= i < N.
Proof.
  intros Hl HN. unfold ramp_index, num_mul, num_div, to_float.
  rewrite of_Z_255. unfold F.is_zero, f255 at 1, bind, num_int.
  destruct l as [s|s| |[|] ml el]; unfold below in Hl; try contradiction.
  - (* a black pixel *)
    assert (HN53 : 0 < N < 2 ^ 53) by lia.
    destruct (of_Z_exact N HN53) as [mN [eN [Hf _]]].
    unfold F.mul, F.of_Z, F.prec, F.emax. rewrite Hf.
    exists 0. split; [reflexivity|lia].
  - destruct Hl as [Hel Hv].
    assert (H255 : 0 < 255 * N < 2 ^ 53) by lia.
    destruct (normalise (255 * N) H255) as [c [Hc Hnorm]].
    pose proof (mul_step ml el N c Hel Hv ltac:(lia) Hc Hnorm) as Hp.
    destruct (F.mul (S754_finite false ml el) (F.of_Z N))
      as [sp|sp| |[|] mp ep]; unfold below in Hp; try contradiction.
    + exists 0. split; [reflexivity|lia].
    + destruct Hp as [Hep Hpv].
      destruct (div_step mp ep N c Hep Hpv ltac:(lia) Hc Hnorm) as [B [HB Hq]].
      exact (to_int_below _ B N Hq HB).
Qed.

Lemma index_in_range r g b N :
  0 <= r <= 255 -> 0 <= g <= 255 -> 0 <= b <= 255 -> 1 <= N < 2 ^ 45 ->
  exists i, ramp_index (luminance (r, g, b)) N = Ok i /\ 0 <= i <= N - 1.
Proof.
  intros Hr Hg Hb HN.
  destruct (ramp_index_in_range _ N (luminance_below r g b Hr Hg Hb) HN)
    as [i [Hi Hrange]].
  exists i. split; [exact Hi|lia].
Qed.

(** ** The luminance mapping and the default ramp *)

(** In binary64 arithmetic the luminance of white is [255 - 2^-45], that is
    254.99999999999997: the three products are rounded and so are the two
    sums. *)
Lemma luminance_white :
  luminance white = S754_finite false 8972014882652159 (-45).
Proof. vm_compute. reflexivity. Qed.

Lemma luminance_black : luminance black = S754_zero false.
Proof. vm_compute. reflexivity. Qed.

(** C3.  With the default ramp, the black pixel is mapped to the first
    character of the ramp and the white pixel to its last character: the
    index computed for white is [|ramp| - 1], because the luminance of white
    is just below 255. *)
Theorem default_ramp_black_and_white :
  let ramp := default_luminosity in
  let n := Z.of_nat (List.length ramp) in
  ramp_index (luminance black) n = Ok 0 /\
  map_pixel ramp black = getitem ramp 0 /\
  ramp_index (luminance white) n = Ok (n - 1) /\
  map_pixel ramp white = getitem ramp (n - 1) /\
  getitem ramp 0 = Ok "H"%char /\
  getitem ramp (n - 1) = Ok " "%char.
Proof. vm_compute. repeat split; reflexivity. Qed.




Lemma getitem_ok {A : Type} (l : list A) (i : Z) :
  0 <= i < Z.of_nat (List.length l) ->
  exists a, getitem l i = Ok a /\ nth_error l (Z.to_nat i) = Some a.
Proof.
  intros Hi.
  destruct (nth_error l (Z.to_nat i)) as [a|] eqn:Ea;
    [|apply nth_error_None in Ea; lia].
  exists a. split; [|reflexivity]. unfold getitem.
  replace (i <? 0) with false by (symmetry; apply Z.ltb_ge; lia).
  replace (0 <=? i) with true by (symmetry; apply Z.leb_le; lia).
  replace (i <? Z.of_nat (List.length l)) with true
    by (symmetry; apply Z.ltb_lt; lia).
  simpl andb. cbv iota. now rewrite Ea.
Qed.

(** The ramp lookup of [process] succeeds for every RGB pixel. *)
Lemma map_pixel_ok (ramp : list ascii) (r g b : Z) :
  0 <= r <= 255 -> 0 <= g <= 255 -> 0 <= b <= 255 ->
  ramp <> [] -> Z.of_nat (List.length ramp) < 2 ^ 45 ->
  exists c, map_pixel ramp (r, g, b) = Ok c.
Proof.
  intros Hr Hg Hb Hne Hlen.
  assert (HN : 1 <= Z.of_nat (List.length ramp) < 2 ^ 45).
  { destruct ramp; [contradiction|]. simpl List.length in *. lia. }
  destruct (index_in_range r g b _ Hr Hg Hb HN) as [i [Hi Hrange]].
  destruct (getitem_ok ramp i ltac:(lia)) as [c [Hc _]].
  exists c. unfold map_pixel. rewrite Hi. exact Hc.
Qed.



(** ** [generate_luminosity_mapping] *)

(** C6.  When the font file cannot be loaded, [generate_luminosity_mapping]
    returns normally and the object, hence its ramp, is what it was before
    the call. *)
Theorem font_load_failure_keeps_ramp (RT : Runtime) (self : asciifier)
    (font_file : string) :
  truetype font_file 51 = None ->
  generate_luminosity_mapping self font_file = self /\
  luminosity (generate_luminosity_mapping self font_file) = luminosity self.
Proof.
  intros Hload. unfold generate_luminosity_mapping. rewrite Hload.
  split; reflexivity.
Qed.

Lemma font_load_failure_keeps_ramp_witness :
  @truetype no_font_runtime "fonts/Hack-Bold.ttf" 51 = None /\
  @generate_luminosity_mapping no_font_runtime init "fonts/Hack-Bold.ttf" = init /\
  luminosity (@generate_luminosity_mapping no_font_runtime init "fonts/Hack-Bold.ttf")
    = luminosity init.
Proof.
  split; [reflexivity|].
  apply (font_load_failure_keeps_ramp no_font_runtime init "fonts/Hack-Bold.ttf").
  reflexivity.
Defined.

(** ** [cumsum] *)

Section CumsumProps.

Context {A : Type} (zero : A) (plus : A -> A -> A).

Lemma cumsum_from_length (xs : list A) : forall s,
  List.length (cumsum_from plus s xs) = List.length xs.
Proof.
  induction xs as [|x xs IH]; intros s; simpl; [reflexivity|].
  now rewrite IH.
Qed.

Lemma cumsum_from_nth (xs : list A) : forall s i,
  (i < List.length xs)%nat ->
  nth_error (cumsum_from plus s xs) i = Some (fold_left plus (firstn (S i) xs) s).
Proof.
  induction xs as [|x xs IH]; intros s i Hi; simpl in Hi; [lia|].
  destruct i as [|i].
  - reflexivity.
  - change (nth_error (cumsum_from plus (plus s x) xs) i
            = Some (fold_left plus (firstn (S i) xs) (plus s x))).
    apply IH. lia.
Qed.

End CumsumProps.

Lemma collect_singletons (f : nat -> string) (xs : list nat)
    (body : nat -> res (list string)) :
  (forall i, In i xs -> body i = Ok [f i]) ->
  collect xs body = Ok (map f xs).
Proof.
  induction xs as [|x xs IH]; intros H; simpl; [reflexivity|].
  rewrite (H x (or_introl eq_refl)). unfold bind at 1.
  rewrite IH by (intros i Hi; apply H; now right).
  reflexivity.
Qed.

Lemma getitem_nth {A : Type} (l : list A) (i : nat) (a : A) :
  nth_error l i = Some a -> getitem l (Z.of_nat i) = Ok a.
Proof.
  intros H. assert (Hi : (i < List.length l)%nat)
    by (apply nth_error_Some; congruence).
  unfold getitem.
  replace (Z.of_nat i <? 0) with false by (symmetry; apply Z.ltb_ge; lia).
  replace (0 <=? Z.of_nat i) with true by (symmetry; apply Z.leb_le; lia).
  replace (Z.of_nat i <? Z.of_nat (List.length l)) with true
    by (symmetry; apply Z.ltb_lt; lia).
  simpl andb. cbv iota. now rewrite Nat2Z.id, H.
Qed.

(** The in-use entries of the cross-reference section are the formatted
    elements of [blockoffsets], in order. *)
Lemma xref_entries (offsets : list Z) :
  collect (range (List.length offsets))
    (fun i => o <- getitem offsets (Z.of_nat i) ;;
              Ok [dec010 o ++ " 00000 n"]%string)
  = Ok (map (fun o => dec010 o ++ " 00000 n")%string offsets).
Proof.
  rewrite (collect_singletons
             (fun i => (dec010 (nth i offsets 0) ++ " 00000 n")%string)).
  - f_equal. unfold range.
    apply nth_error_ext. intros n.
    destruct (Nat.lt_ge_cases n (List.length offsets)) as [Hn|Hn].
    + rewrite nth_error_map, nth_error_seq.
      destruct (Nat.ltb_spec n (List.length offsets)) as [_|]; [|lia].
      rewrite nth_error_map.
      rewrite (nth_error_nth' offsets 0 Hn). reflexivity.
    + rewrite (proj2 (nth_error_None _ _)) by (rewrite length_map, length_seq; lia).
      rewrite (proj2 (nth_error_None _ _)) by (rewrite length_map; lia).
      reflexivity.
  - intros i Hi. apply in_seq in Hi.
    rewrite (getitem_nth offsets i (nth i offsets 0)); [reflexivity|].
    apply nth_error_nth'. lia.
Qed.

(** The lines of the cross-reference section and of the trailer. *)
Lemma pdf_xref_lines (blocks : list (list string)) :
  blocks <> [] ->
  let lengths := map len (map (join nl) blocks) in
  getitem (cumsum 0 Z.add lengths) (Z.of_nat (List.length blocks) - 1)
    = Ok (fold_left Z.add lengths 0) /\
  pdf_xref blocks =
  Ok ([ "xref";
        "0 " ++ dec (Z.of_nat (List.length blocks));
        "0000000000 65535 f" ]%string
      ++ map (fun o => dec010 o ++ " 00000 n")%string (cumsum 0 Z.add lengths)
      ++ [ "trailer<<";
           "  /Root 1 0 R";
           "  /Info 6 0 R";
           "  /Size " ++ dec (Z.of_nat (List.length blocks) + 1);
           ">>";
           "startxref";
           dec (fold_left Z.add lengths 0);
           "%%EOF" ]%string).
Proof.
  intros Hne lengths.
  assert (Hlens : List.length lengths = List.length blocks)
    by (unfold lengths; now rewrite !length_map).
  assert (Hlen : List.length (cumsum 0 Z.add lengths) = List.length blocks).
  { unfold cumsum. now rewrite cumsum_from_length. }
  assert (Hpos : (0 < List.length blocks)%nat)
    by (destruct blocks; [contradiction|simpl; lia]).
  assert (Hget : getitem (cumsum 0 Z.add lengths)
                   (Z.of_nat (List.length blocks) - 1)
                 = Ok (fold_left Z.add lengths 0)).
  { replace (Z.of_nat (List.length blocks) - 1)
      with (Z.of_nat (List.length blocks - 1)) by lia.
    apply getitem_nth. unfold cumsum.
    rewrite cumsum_from_nth by lia.
    rewrite firstn_all2 by lia. reflexivity. }
  split; [exact Hget|].
  unfold pdf_xref, pdf_blockoffsets. fold lengths.
  rewrite xref_entries. unfold bind at 1.
  rewrite Hlen, Hget. reflexivity.
Qed.

(** C10.  [cumsum(xs)] has the length of [xs] and its element [i] is
    [xs[0] + ... + xs[i]]; the offsets written in the cross-reference section
    of the PDF are exactly these sums of the lengths of the joined blocks. *)
Theorem cumsum_prefix_sums :
  (forall (A : Type) (zero : A) (plus : A -> A -> A) (xs : list A),
     List.length (cumsum zero plus xs) = List.length xs /\
     forall i, (i < List.length xs)%nat ->
       nth_error (cumsum zero plus xs) i = Some (prefix_sum zero plus xs i)) /\
  (forall blocks : list (list string),
     blocks <> [] ->
     let lengths := map len (map (join nl) blocks) in
     exists last,
       getitem (cumsum 0 Z.add lengths) (Z.of_nat (List.length blocks) - 1)
         = Ok last /\
       pdf_xref blocks =
       Ok ([ "xref";
             "0 " ++ dec (Z.of_nat (List.length blocks));
             "0000000000 65535 f" ]%string
           ++ map (fun o => dec010 o ++ " 00000 n")%string
                  (cumsum 0 Z.add lengths)
           ++ [ "trailer<<";
                "  /Root 1 0 R";
                "  /Info 6 0 R";
                "  /Size " ++ dec (Z.of_nat (List.length blocks) + 1);
                ">>";
                "startxref";
                dec last;
                "%%EOF" ]%string)).
Proof.
  split.
  - intros A zero plus xs. split.
    + apply cumsum_from_length.
    + intros i Hi. apply cumsum_from_nth. exact Hi.
  - intros blocks Hne lengths.
    exists (fold_left Z.add lengths 0). exact (pdf_xref_lines blocks Hne).
Qed.

Lemma cumsum_prefix_sums_witness :
  nth_error (cumsum 0 Z.add [3; 1; 4]) 2 = Some 8 /\
  pdf_xref [["ab"; "c"]; ["def"]]%string
  = Ok [ "xref"; "0 2"; "0000000000 65535 f";
         "0000000004 00000 n"; "0000000007 00000 n";
         "trailer<<"; "  /Root 1 0 R"; "  /Info 6 0 R"; "  /Size 3"; ">>";
         "startxref"; "7"; "%%EOF" ]%string.
Proof.
  destruct cumsum_prefix_sums as [Hsum Hxref]. split.
  - apply (proj2 (Hsum Z 0 Z.add [3; 1; 4]) 2%nat). simpl. lia.
  - destruct (Hxref [["ab"; "c"]; ["def"]]%string ltac:(discriminate))
      as [last [Hlast Heq]].
    rewrite Heq. injection Hlast as <-. reflexivity.
Defined.

(** ** [to_plain_text] *)







(** ** [process] *)

Lemma setitem_length {A : Type} (l : list A) : forall i v,
  List.length (setitem l i v) = List.length l.
Proof.
  induction l as [|a l IH]; intros [|i] v; simpl; try reflexivity.
  now rewrite IH.
Qed.

Lemma setitem_In {A : Type} (l : list A) : forall i v x,
  In x (setitem l i v) -> x = v \/ In x l.
Proof.
  induction l as [|a l IH]; intros [|i] v x H; simpl in *; try tauto.
  - destruct H as [H|H]; auto.
  - destruct H as [H|H]; auto. destruct (IH i v x H); auto.
Qed.

Lemma setitem_app {A : Type} (pre : list A) (a : A) (rest : list A) (v : A) :
  setitem (pre ++ a :: rest) (List.length pre) v = pre ++ v :: rest.
Proof.
  induction pre as [|p pre IH]; simpl; [reflexivity|]. now rewrite IH.
Qed.

Lemma nth_error_middle {A : Type} (pre : list A) (a : A) (rest : list A) :
  nth_error (pre ++ a :: rest) (List.length pre) = Some a.
Proof.
  induction pre as [|p pre IH]; simpl; [reflexivity|exact IH].
Qed.

Lemma for_each_preserves {S : Type} (P : S -> Prop)
    (body : nat -> S -> S * option exn) (xs : list nat) :
  (forall x s, P s -> P (fst (body x s))) ->
  forall s, P s -> P (fst (for_each xs body s)).
Proof.
  intros Hbody. induction xs as [|x xs IH]; intros s Hs; simpl; [exact Hs|].
  specialize (Hbody x s Hs). destruct (body x s) as [s' [e|]]; simpl in *.
  - exact Hbody.
  - apply IH. exact Hbody.
Qed.

Lemma for_each_normal {S : Type} (body : nat -> S -> S * option exn)
    (xs : list nat) : forall s,
  snd (for_each xs body s) = None ->
  forall x, In x xs -> exists s1, snd (body x s1) = None.
Proof.
  induction xs as [|x xs IH]; intros s H y Hy; simpl in *; [contradiction|].
  destruct (body x s) as [s' [e|]] eqn:Eb; simpl in H; [discriminate|].
  destruct Hy as [<-|Hy].
  - exists s. now rewrite Eb.
  - exact (IH s' H y Hy).
Qed.

Lemma grid_set_shape (g : grid) (w h x y : nat) (c : ascii) :
  has_shape g w h -> has_shape (grid_set g x y c) w h.
Proof.
  intros [Hw Hh]. unfold grid_set.
  destruct (nth_error g x) as [col|] eqn:Ec; [|now split].
  split.
  - now rewrite setitem_length.
  - intros col' Hin. apply setitem_In in Hin. destruct Hin as [->|Hin].
    + rewrite setitem_length. apply Hh. eapply nth_error_In. exact Ec.
    + now apply Hh.
Qed.

Lemma blank_grid_eq (w h : nat) :
  blank_grid w h = repeat (repeat " "%char h) w.
Proof. unfold blank_grid. apply map_id. Qed.

Lemma blank_grid_shape (w h : nat) : has_shape (blank_grid w h) w h.
Proof.
  rewrite blank_grid_eq. split.
  - apply repeat_length.
  - intros col Hin. apply repeat_spec in Hin. subst col. apply repeat_length.
Qed.

Section ProcessLoops.

Variables (i : image) (ramp : list ascii).

Lemma process_cell_ok (x y : nat) (g : grid) :
  (exists c, map_pixel ramp (getpixel i x y) = Ok c) ->
  process_cell i ramp x y g = (grid_set g x y (pixel_char i ramp x y), None).
Proof.
  intros [c Hc]. unfold process_cell, pixel_char. now rewrite Hc.
Qed.

(** The inner loop on the column [x], started at row [a] on a column whose
    rows [a .. a+n-1] are still to be filled. *)
Lemma inner_loop (x : nat) (gpre grest : grid) (n : nat) :
  forall (a : nat) (pre rest : list ascii),
  List.length gpre = x -> List.length pre = a -> List.length rest = n ->
  (forall y, (a <= y < a + n)%nat ->
     exists c, map_pixel ramp (getpixel i x y) = Ok c) ->
  for_each (seq a n) (process_cell i ramp x) (gpre ++ (pre ++ rest) :: grest)
  = (gpre ++ (pre ++ map (pixel_char i ramp x) (seq a n)) :: grest, None).
Proof.
  induction n as [|n IH]; intros a pre rest Hx Ha Hn Hok.
  - destruct rest; [|discriminate]. reflexivity.
  - destruct rest as [|r rest]; [discriminate|].
    subst x a. simpl seq. simpl for_each.
    rewrite process_cell_ok by (apply Hok; lia).
    unfold grid_set. rewrite nth_error_middle, setitem_app, setitem_app.
    replace (pre ++ pixel_char i ramp (List.length gpre) (List.length pre) :: rest)
      with ((pre ++ [pixel_char i ramp (List.length gpre) (List.length pre)]) ++ rest)
      by (rewrite <- app_assoc; reflexivity).
    rewrite (IH (S (List.length pre))).
    + rewrite <- app_assoc. reflexivity.
    + reflexivity.
    + rewrite length_app. simpl. lia.
    + simpl in Hn. lia.
    + intros y Hy. apply Hok. lia.
Qed.

(** The outer loop, started at column [a] with [n] blank columns left. *)
Lemma outer_loop (n : nat) : forall (a : nat) (gpre : grid),
  List.length gpre = a ->
  (forall x y, (a <= x < a + n)%nat -> (y < im_height i)%nat ->
     exists c, map_pixel ramp (getpixel i x y) = Ok c) ->
  for_each (seq a n)
    (fun x => for_each (range (im_height i)) (fun y => process_cell i ramp x y))
    (gpre ++ repeat (repeat " "%char (im_height i)) n)
  = (gpre ++ map (fun x => map (pixel_char i ramp x) (range (im_height i)))
                 (seq a n), None).
Proof.
  induction n as [|n IH]; intros a gpre Ha Hok.
  - reflexivity.
  - simpl repeat. simpl seq. simpl for_each. unfold range at 1.
    rewrite (inner_loop a gpre _ (im_height i) 0 [] (repeat " "%char (im_height i))
               Ha eq_refl (repeat_length _ _)).
    + simpl app at 2.
      replace (gpre ++ map (pixel_char i ramp a) (seq 0 (im_height i))
                 :: repeat (repeat " "%char (im_height i)) n)
        with ((gpre ++ [map (pixel_char i ramp a) (seq 0 (im_height i))])
                ++ repeat (repeat " "%char (im_height i)) n)
        by (rewrite <- app_assoc; reflexivity).
      rewrite (IH (S a)).
      * rewrite <- app_assoc. reflexivity.
      * rewrite length_app. simpl. lia.
      * intros x y Hx Hy. apply Hok; lia.
    + intros y Hy. apply Hok; lia.
Qed.

End ProcessLoops.

Lemma process_unfold (i : image) (self : asciifier) :
  process i self =
  (set_result (set_im self i)
     (fst (for_each (range (im_width i))
             (fun x => for_each (range (im_height i))
                         (fun y => process_cell i (luminosity self) x y))
             (blank_grid (im_width i) (im_height i)))),
   snd (for_each (range (im_width i))
          (fun x => for_each (range (im_height i))
                      (fun y => process_cell i (luminosity self) x y))
          (blank_grid (im_width i) (im_height i)))).
Proof.
  unfold process. simpl luminosity.
  destruct (for_each _ _ _) as [g e]. reflexivity.
Qed.

Lemma process_cell_normal (i : image) (ramp : list ascii) (x y : nat) (g : grid) :
  snd (process_cell i ramp x y g) = None ->
  exists c, map_pixel ramp (getpixel i x y) = Ok c.
Proof.
  unfold process_cell. destruct (map_pixel ramp (getpixel i x y)) as [c|e].
  - intros _. now exists c.
  - discriminate.
Qed.

Lemma map_pixel_In (ramp : list ascii) (p : Z * Z * Z) (c : ascii) :
  map_pixel ramp p = Ok c -> In c ramp.
Proof.
  unfold map_pixel, bind.
  destruct (ramp_index _ _) as [k|e]; [|discriminate].
  unfold getitem. destruct (_ && _); [|discriminate].
  destruct (nth_error ramp _) as [a|] eqn:E; [|discriminate].
  intros H. injection H as <-. eapply nth_error_In. exact E.
Qed.

(** C9.  After [process], the grid has as many columns as the sampled image
    is wide and every column as many cells as the image is high.  The call
    returns normally exactly when the ramp lookup succeeds for every pixel,
    which it does for every RGB image and every non-empty ramp of fewer than
    [2^45] characters; the cell [x][y] then holds the character of the ramp
    that the luminance mapping selects for the pixel [(x, y)]. *)
Theorem process_fills_grid (i : image) (self : asciifier) :
  let ramp := luminosity self in
  let w := im_width i in
  let h := im_height i in
  let self' := fst (process i self) in
  let outcome := snd (process i self) in
  im self' = Some i /\ luminosity self' = ramp /\
  (exists g, result self' = Some g /\ has_shape g w h) /\
  (outcome = None <->
   forall x y, (x < w)%nat -> (y < h)%nat ->
     exists c, map_pixel ramp (getpixel i x y) = Ok c) /\
  (outcome = None ->
   result self' = Some (char_grid i ramp) /\
   forall x y, (x < w)%nat -> (y < h)%nat ->
     exists col,
       nth_error (char_grid i ramp) x = Some col /\
       nth_error col y = Some (pixel_char i ramp x y) /\
       map_pixel ramp (getpixel i x y) = Ok (pixel_char i ramp x y) /\
       In (pixel_char i ramp x y) ramp) /\
  (rgb_image i -> ramp <> [] -> Z.of_nat (List.length ramp) < 2 ^ 45 ->
   outcome = None).
Proof.
  intros ramp w h self' outcome.
  unfold self', outcome. rewrite process_unfold. simpl fst. simpl snd.
  fold ramp w h.
  set (outer := fun x => for_each (range h) (fun y => process_cell i ramp x y)).
  assert (Hall : (forall x y, (x < w)%nat -> (y < h)%nat ->
                    exists c, map_pixel ramp (getpixel i x y) = Ok c) ->
                 for_each (range w) outer (blank_grid w h)
                 = (char_grid i ramp, None)).
  { intros Hok. rewrite blank_grid_eq. unfold outer, range, w, h.
    apply (outer_loop i ramp (im_width i) 0 [] eq_refl).
    intros x y Hx Hy. apply Hok; lia. }
  assert (Hnormal : snd (for_each (range w) outer (blank_grid w h)) = None ->
                    forall x y, (x < w)%nat -> (y < h)%nat ->
                      exists c, map_pixel ramp (getpixel i x y) = Ok c).
  { intros Hout x y Hx Hy.
    destruct (for_each_normal outer (range w) _ Hout x) as [g1 Hg1];
      [apply in_seq; lia|].
    destruct (for_each_normal _ (range h) _ Hg1 y) as [g2 Hg2];
      [apply in_seq; lia|].
    exact (process_cell_normal i ramp x y g2 Hg2). }
  split; [reflexivity|]. split; [reflexivity|]. split; [|split; [|split]].
  - eexists. split; [reflexivity|].
    apply (for_each_preserves (fun g => has_shape g w h)).
    + intros x g Hg. unfold outer.
      apply (for_each_preserves (fun g => has_shape g w h)); [|exact Hg].
      intros y g' Hg'. unfold process_cell.
      destruct (map_pixel ramp (getpixel i x y)); simpl; [|exact Hg'].
      now apply grid_set_shape.
    + apply blank_grid_shape.
  - split; [exact Hnormal|]. intros Hok. now rewrite (Hall Hok).
  - intros Hout. pose proof (Hnormal Hout) as Hok. rewrite (Hall Hok).
    split; [reflexivity|]. intros x y Hx Hy.
    exists (map (pixel_char i ramp x) (range h)).
    assert (Hc : map_pixel ramp (getpixel i x y) = Ok (pixel_char i ramp x y)).
    { destruct (Hok x y Hx Hy) as [c Hc]. unfold pixel_char. now rewrite Hc. }
    repeat split.
    + unfold char_grid, range. fold w h.
      rewrite nth_error_map, nth_error_seq.
      destruct (Nat.ltb_spec x w) as [_|]; [|lia]. reflexivity.
    + unfold range. rewrite nth_error_map, nth_error_seq.
      destruct (Nat.ltb_spec y h) as [_|]; [|lia]. reflexivity.
    + exact Hc.
    + exact (map_pixel_In ramp _ _ Hc).
  - intros Hrgb Hne Hlen. rewrite Hall; [reflexivity|].
    intros x y Hx Hy. specialize (Hrgb x y Hx Hy).
    destruct (getpixel i x y) as [[r g] b]. destruct Hrgb as [Hr [Hg Hb]].
    exact (map_pixel_ok ramp r g b Hr Hg Hb Hne Hlen).
Qed.

Lemma process_fills_grid_witness :
  rgb_image (plain_image 2 2 white) /\
  snd (process (plain_image 2 2 white) init) = None /\
  result (fst (process (plain_image 2 2 white) init))
    = Some [[" "; " "]; [" "; " "]]%char.
Proof.
  assert (Hrgb : rgb_image (plain_image 2 2 white)).
  { intros x y _ _. simpl. lia. }
  destruct (process_fills_grid (plain_image 2 2 white) init)
    as [_ [_ [_ [_ [Hres Hout]]]]].
  assert (Hnone : snd (process (plain_image 2 2 white) init) = None).
  { apply Hout; [exact Hrgb|discriminate|reflexivity]. }
  split; [exact Hrgb|]. split; [exact Hnone|].
  rewrite (proj1 (Hres Hnone)). reflexivity.
Defined.

(** ** [to_pdf]: the layout of the buffer *)

Lemma string_app_assoc (a b c : string) :
  ((a ++ b) ++ c = a ++ (b ++ c))%string.
Proof. induction a as [|ch a IH]; simpl; [reflexivity|now rewrite IH]. Qed.

Lemma string_length_app (a b : string) :
  String.length (a ++ b) = (String.length a + String.length b)%nat.
Proof. induction a as [|ch a IH]; simpl; [reflexivity|now rewrite IH]. Qed.

Lemma len_app (a b : string) : len (a ++ b) = len a + len b.
Proof. unfold len. rewrite string_length_app. lia. Qed.

Lemma fold_add_shift (l : list Z) : forall a,
  fold_left Z.add l a = a + fold_left Z.add l 0.
Proof.
  induction l as [|x l IH]; intros a; simpl; [lia|].
  rewrite (IH (a + x)), (IH x). lia.
Qed.

(** In [sep.join(parts)] the part of index [k] starts at the byte whose
    position is the sum of the lengths of the parts before it, plus [k] for
    the separators. *)
Lemma join_position (parts : list string) : forall k,
  (k < List.length parts)%nat ->
  exists pre post,
    join nl parts = (pre ++ nth k parts EmptyString ++ post)%string /\
    len pre = fold_left Z.add (firstn k (map len parts)) 0 + Z.of_nat k.
Proof.
  induction parts as [|b parts IH]; intros k Hk; simpl in Hk; [lia|].
  destruct k as [|k].
  - exists EmptyString.
    destruct parts as [|b' parts].
    + exists EmptyString. split; [|reflexivity].
      simpl. clear. induction b; simpl; [reflexivity|now f_equal].
    + exists (nl ++ join nl (b' :: parts))%string. split; reflexivity.
  - destruct (IH k ltac:(lia)) as [pre [post [Hj Hlen]]].
    exists (b ++ nl ++ pre)%string, post.
    destruct parts as [|b' parts]; [simpl in Hk; lia|].
    split.
    + change (join nl (b :: b' :: parts))
        with (b ++ nl ++ join nl (b' :: parts))%string.
      rewrite Hj. rewrite !string_app_assoc. reflexivity.
    + rewrite !len_app, Hlen.
      change (firstn (S k) (map len (b :: b' :: parts)))
        with (len b :: firstn k (map len (b' :: parts))).
      simpl fold_left. rewrite (fold_add_shift _ (0 + len b)).
      change (len nl) with 1. lia.
Qed.

(** The position, in the buffer that [to_pdf] returns, of the block of index
    [k] and of the cross-reference section. *)
Lemma pdf_buffer_block (blocks : list (list string)) (xref : list string)
    (k : nat) :
  (k < List.length blocks)%nat ->
  exists pre post,
    pdf_buffer blocks xref = (pre ++ join nl (nth k blocks []) ++ post)%string /\
    len pre
    = fold_left Z.add (firstn k (map len (map (join nl) blocks))) 0 + Z.of_nat k.
Proof.
  intros Hk. unfold pdf_buffer.
  destruct (join_position (map (join nl) (blocks ++ [xref])) k) as [pre [post [Hj Hl]]].
  { rewrite length_map, length_app. simpl. lia. }
  exists pre, post. split.
  - rewrite Hj. f_equal. f_equal.
    rewrite map_app, app_nth1 by (rewrite length_map; lia).
    change EmptyString with (join nl []). apply map_nth.
  - rewrite Hl. f_equal. f_equal.
    rewrite !map_app, firstn_app.
    replace (k - List.length (map len (map (join nl) blocks)))%nat with 0%nat
      by (rewrite !length_map; lia).
    simpl firstn. now rewrite app_nil_r.
Qed.

Lemma join_snoc (parts : list string) (x : string) :
  exists pre,
    join nl (parts ++ [x]) = (pre ++ x)%string /\
    len pre = fold_left Z.add (map len parts) 0 + Z.of_nat (List.length parts).
Proof.
  induction parts as [|a parts [pre [Hj Hl]]].
  - exists EmptyString. split; reflexivity.
  - exists (a ++ nl ++ pre)%string. split.
    + change ((a :: parts) ++ [x]) with (a :: (parts ++ [x])).
      destruct (parts ++ [x]) as [|b rest] eqn:E;
        [destruct parts; discriminate|].
      change (join nl (a :: b :: rest))
        with (a ++ nl ++ join nl (b :: rest))%string.
      rewrite Hj, !string_app_assoc. reflexivity.
    + rewrite !len_app, Hl. simpl map. simpl fold_left.
      rewrite (fold_add_shift _ (0 + len a)).
      change (len nl) with 1. simpl List.length. lia.
Qed.

Lemma pdf_buffer_xref (blocks : list (list string)) (xref : list string) :
  exists pre,
    pdf_buffer blocks xref = (pre ++ join nl xref)%string /\
    len pre
    = fold_left Z.add (map len (map (join nl) blocks)) 0
      + Z.of_nat (List.length blocks).
Proof.
  unfold pdf_buffer. rewrite map_app. simpl map at 2.
  destruct (join_snoc (map (join nl) blocks) (join nl xref)) as [pre [Hj Hl]].
  exists pre. split; [exact Hj|]. rewrite Hl, length_map. reflexivity.
Qed.

Section PdfLayout.

Context {RT : Runtime}.

(** [to_pdf] builds nine blocks, the header followed by the objects 1 to 8;
    the block of index [k] starts with the declaration of the object [k]. *)
Lemma pdf_blocks_shape (self : asciifier) (kwargs : pdf_kwargs)
    (blocks : list (list string)) :
  pdf_blocks self kwargs = Ok blocks ->
  List.length blocks = 9%nat /\
  forall k, (1 <= k <= 8)%nat ->
    exists tail,
      join nl (nth k blocks []) = (dec (Z.of_nat k) ++ " 0 obj" ++ tail)%string.
Proof.
  unfold pdf_blocks.
  destruct (PAPER_SIZES _) as [paper|e]; [|discriminate].
  unfold bind at 1.
  destruct (pdf_stream _ _) as [stream|e]; [|discriminate].
  unfold bind at 1.
  destruct (ord_min _) as [first_char|e]; [|discriminate].
  unfold bind at 1.
  destruct (ord_max _) as [last_char|e]; [|discriminate].
  unfold bind at 1.
  intros H. injection H as <-. split; [reflexivity|].
  intros k Hk.
  assert (Hcases : (k = 1 \/ k = 2 \/ k = 3 \/ k = 4 \/ k = 5 \/ k = 6
                    \/ k = 7 \/ k = 8)%nat) by lia.
  destruct Hcases as [H|[H|[H|[H|[H|[H|[H|H]]]]]]]; subst k;
    eexists; reflexivity.
Qed.

Lemma to_pdf_inv (self : asciifier) (kwargs : pdf_kwargs) (buf : string) :
  to_pdf self kwargs = Ok buf ->
  exists blocks xref,
    pdf_blocks self kwargs = Ok blocks /\ pdf_xref blocks = Ok xref /\
    buf = pdf_buffer blocks xref.
Proof.
  unfold to_pdf.
  destruct (pdf_blocks self kwargs) as [blocks|e] eqn:Eb; [|discriminate].
  unfold bind at 1.
  destruct (pdf_xref blocks) as [xref|e] eqn:Ex; [|discriminate].
  unfold bind. intros H. injection H as <-.
  exists blocks, xref. repeat split; [exact Ex].
Qed.

(** What the code does where C2 asks for exact offsets: in every document
    that [to_pdf] returns, the entry of the cross-reference section for the
    object [k] records the position of the declaration [k 0 obj] minus [k].
    [cumsum] adds the lengths of the joined blocks, and the newline that
    joins two blocks is not counted. *)
Theorem pdf_xref_offsets_lag (self : asciifier) (kwargs : pdf_kwargs)
    (buf : string) :
  to_pdf self kwargs = Ok buf ->
  exists blocks xref,
    pdf_blocks self kwargs = Ok blocks /\ pdf_xref blocks = Ok xref /\
    buf = pdf_buffer blocks xref /\
    forall k, (1 <= k <= 8)%nat ->
      exists pre tail offset,
        buf = (pre ++ dec (Z.of_nat k) ++ " 0 obj" ++ tail)%string /\
        nth_error xref (2 + k) = Some (dec010 offset ++ " 00000 n")%string /\
        offset = len pre - Z.of_nat k.
Proof.
  intros Hbuf.
  destruct (to_pdf_inv self kwargs buf Hbuf) as [blocks [xref [Hb [Hx ->]]]].
  exists blocks, xref. repeat split; try assumption.
  intros k Hk.
  destruct (pdf_blocks_shape self kwargs blocks Hb) as [Hlen Hdecl].
  destruct (Hdecl k Hk) as [tail Htail].
  destruct (pdf_buffer_block blocks xref k ltac:(lia)) as [pre [post [Hpos Hpre]]].
  exists pre, (tail ++ post)%string,
    (fold_left Z.add (firstn k (map len (map (join nl) blocks))) 0).
  split; [|split].
  - rewrite Hpos, Htail. rewrite !string_app_assoc. reflexivity.
  - assert (Hne : blocks <> []) by (destruct blocks; [discriminate|discriminate]).
    destruct (pdf_xref_lines blocks Hne) as [_ Hlines].
    set (lengths := map len (map (join nl) blocks)) in *.
    assert (Hl : List.length lengths = 9%nat)
      by (unfold lengths; now rewrite !length_map).
    destruct k as [|k]; [lia|].
    assert (Hxr : nth_error xref (2 + S k)
                  = nth_error
                      (map (fun o => dec010 o ++ " 00000 n")%string
                           (cumsum 0 Z.add lengths)
                       ++ [ "trailer<<"; "  /Root 1 0 R"; "  /Info 6 0 R";
                            "  /Size " ++ dec (Z.of_nat (List.length blocks) + 1);
                            ">>"; "startxref";
                            dec (fold_left Z.add lengths 0); "%%EOF" ]%string) k).
    { rewrite Hlines in Hx. injection Hx as <-. reflexivity. }
    rewrite Hxr.
    rewrite nth_error_app1
      by (rewrite length_map; unfold cumsum; rewrite cumsum_from_length; lia).
    rewrite nth_error_map. unfold cumsum.
    rewrite cumsum_from_nth by lia. reflexivity.
  - rewrite Hpre. lia.
Qed.

(** What the code does where C4 asks for consistent counts and an exact
    [startxref]: in every document that [to_pdf] returns, the
    cross-reference subsection is announced with 9 entries and has 10, the
    trailer gives 10 as [/Size] although there are 8 objects (the header
    block is counted as one), and the number after [startxref] is the
    position of the [xref] keyword minus 9. *)
Theorem pdf_trailer_counts (self : asciifier) (kwargs : pdf_kwargs)
    (buf : string) :
  to_pdf self kwargs = Ok buf ->
  exists blocks xref entries pre rest last,
    pdf_blocks self kwargs = Ok blocks /\ pdf_xref blocks = Ok xref /\
    List.length blocks = 9%nat /\
    xref = ([ "xref"; "0 9" ]%string ++ entries ++
            [ "trailer<<"; "  /Root 1 0 R"; "  /Info 6 0 R"; "  /Size 10";
              ">>"; "startxref"; dec last; "%%EOF" ]%string)%list /\
    List.length entries = 10%nat /\
    buf = (pre ++ "xref" ++ rest)%string /\
    last = len pre - 9.
Proof.
  intros Hbuf.
  destruct (to_pdf_inv self kwargs buf Hbuf) as [blocks [xref [Hb [Hx ->]]]].
  destruct (pdf_blocks_shape self kwargs blocks Hb) as [Hlen _].
  assert (Hne : blocks <> []) by (destruct blocks; discriminate).
  destruct (pdf_xref_lines blocks Hne) as [_ Hlines].
  destruct (pdf_buffer_xref blocks xref) as [pre [Hpos Hpre]].
  set (lengths := map len (map (join nl) blocks)) in *.
  rewrite Hlen in Hlines. change (dec (Z.of_nat 9)) with "9"%string in Hlines.
  change (dec (Z.of_nat 9 + 1)) with "10"%string in Hlines.
  pose proof Hx as Hx'. rewrite Hlines in Hx'. injection Hx' as Hxref.
  exists blocks, xref,
    ("0000000000 65535 f"%string
       :: map (fun o => dec010 o ++ " 00000 n")%string (cumsum 0 Z.add lengths)),
    pre,
    (nl ++ join nl (tl xref))%string,
    (fold_left Z.add lengths 0).
  repeat split; try assumption.
  - symmetry. exact Hxref.
  - simpl List.length. rewrite length_map. unfold cumsum.
    rewrite cumsum_from_length. unfold lengths. rewrite !length_map.
    now rewrite Hlen.
  - rewrite Hpos. f_equal. rewrite <- Hxref. reflexivity.
  - rewrite Hpre, Hlen. lia.
Qed.

End PdfLayout.

Lemma pdf_xref_offsets_lag_witness :
  exists buf,
    @to_pdf no_font_runtime white_2x2 pdf_uncompressed = Ok buf /\
    exists blocks xref,
      @pdf_blocks no_font_runtime white_2x2 pdf_uncompressed = Ok blocks /\
      pdf_xref blocks = Ok xref /\
      buf = pdf_buffer blocks xref /\
      forall k, (1 <= k <= 8)%nat ->
        exists pre tail offset,
          buf = (pre ++ dec (Z.of_nat k) ++ " 0 obj" ++ tail)%string /\
          nth_error xref (2 + k) = Some (dec010 offset ++ " 00000 n")%string /\
          offset = len pre - Z.of_nat k.
Proof.
  destruct (@to_pdf no_font_runtime white_2x2 pdf_uncompressed) as [buf|e] eqn:E;
    [|vm_compute in E; discriminate E].
  exists buf. split; [reflexivity|].
  apply (@pdf_xref_offsets_lag no_font_runtime white_2x2 pdf_uncompressed buf).
  exact E.
Defined.

Lemma pdf_trailer_counts_witness :
  exists buf,
    @to_pdf no_font_runtime white_2x2 pdf_uncompressed = Ok buf /\
    exists blocks xref entries pre rest last,
      @pdf_blocks no_font_runtime white_2x2 pdf_uncompressed = Ok blocks /\
      pdf_xref blocks = Ok xref /\
      List.length blocks = 9%nat /\
      xref = ([ "xref"; "0 9" ]%string ++ entries ++
              [ "trailer<<"; "  /Root 1 0 R"; "  /Info 6 0 R"; "  /Size 10";
                ">>"; "startxref"; dec last; "%%EOF" ]%string)%list /\
      List.length entries = 10%nat /\
      buf = (pre ++ "xref" ++ rest)%string /\
      last = len pre - 9.
Proof.
  destruct (@to_pdf no_font_runtime white_2x2 pdf_uncompressed) as [buf|e] eqn:E;
    [|vm_compute in E; discriminate E].
  exists buf. split; [reflexivity|].
  apply (@pdf_trailer_counts no_font_runtime white_2x2 pdf_uncompressed buf).
  exact E.
Defined.

(** The document made from a white image of 2 by 2 pixels, without
    compression: the entry for the object 1 says 13, and [1 0 obj] starts at
    the byte 14 (the byte 13 is the newline after the header); [startxref]
    says 1041 and the [xref] keyword starts at the byte 1050. *)
Lemma pdf_offsets_example :
  exists buf blocks xref,
    @to_pdf no_font_runtime white_2x2 pdf_uncompressed = Ok buf /\
    @pdf_blocks no_font_runtime white_2x2 pdf_uncompressed = Ok blocks /\
    pdf_xref blocks = Ok xref /\
    nth_error xref 3 = Some "0000000013 00000 n"%string /\
    find "1 0 obj" buf = Some 14%nat /\
    nth_error xref 18 = Some "1041"%string /\
    find "xref" buf = Some 1050%nat.
Proof.
  eexists. eexists. eexists.
  split; [vm_compute; reflexivity|].
  split; [vm_compute; reflexivity|].
  split; [vm_compute; reflexivity|].
  repeat split; vm_compute; reflexivity.
Qed.

(** ** [to_postscript]: the layout *)

(** What the code does where C8 asks for a centred offset.  For the A4 page
    of a 2 by 2 image with the default margins of 10 mm: the paper size and
    the printable size are in points and the scale is the printable width
    divided by the natural width, but the offset adds the margins in
    millimetres, not converted: the translation is (10.0, 133.5), while
    centring between the converted margins asks for about (28.14, 151.45).
    The content starts at 10 pt, left of the printable area, which starts at
    28.35 pt. *)
Theorem postscript_offset_margin_not_converted :
  exists lay centred,
    postscript_layout white_2x2 "a4" = Ok lay /\
    paper_pt lay = mkSize (mm2pt (PyInt 210)) (mm2pt (PyInt 297)) /\
    size_pt lay
    = mkSize (num_ceil (mm2pt (PyInt 210) - mm2pt (PyInt 10 + PyInt 10))%py)
             (num_ceil (mm2pt (PyInt 297) - mm2pt (PyInt 10 + PyInt 10))%py) /\
    size lay = mkSize (PyInt 24) (PyInt 24) /\
    num_div (width (size_pt lay)) (width (size lay)) = Ok (scale lay) /\
    offset lay
    = mkPoint (PyFloat (F.of_Z 10)) (PyFloat (F.lit 1335 10)) /\
    centred_offset white_2x2 lay = Ok centred /\
    centred
    = mkPoint (PyFloat (S754_finite false 7920085261275593 (-48)))
              (PyFloat (S754_finite false 5328493073836455 (-45))) /\
    num_lt (px (offset lay)) (px centred) = true /\
    num_lt (py (offset lay)) (py centred) = true /\
    num_lt (px (offset lay)) (mm2pt (left (margins white_2x2))) = true.
Proof.
  eexists. eexists.
  split; [vm_compute; reflexivity|].
  split; [vm_compute; reflexivity|].
  split; [vm_compute; reflexivity|].
  split; [vm_compute; reflexivity|].
  split; [vm_compute; reflexivity|].
  split; [vm_compute; reflexivity|].
  split; [vm_compute; reflexivity|].
  repeat split; vm_compute; reflexivity.
Qed.
